(** * Composed cross-chain transfer flow: codec, receiver and initiator

    A shallow embedding of the three Solidity units that carry the
    composed-transfer protocol of the repository:

    - [ComposeMsg]   (contracts/libraries/ComposeMsg.sol), the payload codec;
    - [Manager]      (AlphaTokenCrossChainManager), the destination-side
                     compose handler;
    - [AlphaOFT]     (contracts/AlphaOFT.sol), the token-side initiator.

    Solidity values are embedded as follows.  [uintN], [address], [bytes32]
    and enum tags are integers in [Z]; byte strings ([bytes]) are lists of
    [Byte.byte]; a [mapping] is a finite map read with default [0]; a call
    either returns or reverts ([result]), and a revert discards every effect
    of the call. *)

From Stdlib Require Import ZArith List Strings.String Strings.Byte Bool Lia.
From stdpp Require Import base option list gmap.
Import ListNotations.

Local Open Scope Z_scope.

(** ** Values *)

Definition address := Z.
Abbreviation bytes := (list byte) (only parsing).

(** The range of the Solidity value types used by the contracts. *)
Definition is_address (a : Z) : Prop := 0 <= a < 2 ^ 160.
Definition is_uint256 (n : Z) : Prop := 0 <= n < 2 ^ 256.

Definition UINT64_MAX : Z := 2 ^ 64 - 1.
Definition UINT160_MAX : Z := 2 ^ 160 - 1.
Definition UINT256_MAX : Z := 2 ^ 256 - 1.

(** ** Reverts

    Custom errors of the two contracts, the errors of the OpenZeppelin base
    contracts that the modelled paths can raise, and the three built-in
    failure shapes of the EVM code solc generates: a revert without data
    (ABI validation, calldata slice out of range), [Panic(uint256)] and
    [Error(string)] ([require] / [revert] with a message). *)

Inductive error : Type :=
  | EmptyRevert
  | Panic (code : Z)
  | ErrorString (reason : string)
  (* AlphaTokenCrossChainManager *)
  | UnauthorizedSender
  | UntrustedOApp
  | UnsupportedMessageType
  | ContractPaused
  | ZeroAddress
  (* AlphaOFT *)
  | InvalidEndpointId
  | NoCrossChainManager
  | NoPeerConfigured
  (* Ownable *)
  | OwnableUnauthorizedAccount (account : address)
  (* ERC20 / SafeERC20 / OFT core *)
  | ERC20InsufficientBalance (sender : address) (balance needed : Z)
  | ERC20InvalidReceiver (receiver : address)
  | ExternalRevert (data : bytes).

Inductive result (A : Type) : Type :=
  | Ok (a : A)
  | Revert (e : error).
Arguments Ok {A} a.
Arguments Revert {A} e.

Definition bind {A B : Type} (r : result A) (k : A -> result B) : result B :=
  match r with
  | Ok a => k a
  | Revert e => Revert e
  end.

Notation "'let*' x ':=' r 'in' k" := (bind r (fun x => k))
  (at level 10, x name, r at level 100, k at level 200, only parsing).
Notation "'let*' ' p ':=' r 'in' k" := (bind r (fun x => let 'p := x in k))
  (at level 10, p pattern, r at level 100, k at level 200, only parsing).
Notation "'check' r 'in' k" := (bind r (fun _ => k))
  (at level 10, r at level 100, k at level 200, only parsing).

(** [if (c) revert e;] *)
Definition revert_if (c : bool) (e : error) : result unit :=
  if c then Revert e else Ok tt.

(** [require(c, reason);] *)
Definition require (c : bool) (reason : string) : result unit :=
  if c then Ok tt else Revert (ErrorString reason).

(** ** Big-endian words *)

Definition Z_of_byte (b : byte) : Z := Z.of_N (Byte.to_N b).

Definition byte_of_Z (z : Z) : byte :=
  default x00 (Byte.of_N (Z.to_N (z mod 256))).

(** The [w] low-order bytes of [n], most significant first. *)
Fixpoint be_bytes (w : nat) (n : Z) : bytes :=
  match w with
  | O => []
  | S w' => be_bytes w' (n / 256) ++ [byte_of_Z n]
  end.

Definition be_value (bs : bytes) : Z :=
  fold_left (fun acc b => acc * 256 + Z_of_byte b) bs 0.

(** ** The ABI layer used by the codec

    [abi.encode] and [abi.decode] as solc (ABI coder v2, the default of
    the 0.8 line the sources require) generates them for the two type
    lists used by the library: [(address, MessageType, bytes)] and
    [(uint256)]. *)

Module Abi.

(** One 32-byte slot holding an unsigned value. *)
Definition word (n : Z) : bytes := be_bytes 32 n.

(** [mload] of the 32 bytes at offset [off] of a byte string. *)
Definition mload (data : bytes) (off : nat) : Z :=
  be_value (take 32 (drop off data)).

(** Zero bytes that fill a dynamic value up to a multiple of 32. *)
Definition padding (len : nat) : bytes :=
  replicate ((32 - len mod 32) mod 32)%nat x00.

(** [abi.encode(uint256)] *)
Definition encode_uint256 (n : Z) : bytes := word n.

(** [abi.decode(data, (uint256))]: the head must be present; bytes after
    it are not looked at. *)
Definition decode_uint256 (data : bytes) : result Z :=
  if (length data <? 32)%nat then Revert EmptyRevert
  else Ok (mload data 0).

(** [abi.encode(address, <enum>, bytes)] with the enum given by its tag:
    three head slots (the third is the offset of the tail), then the
    length of the byte string, its bytes and the padding. *)
Definition encode_address_enum_bytes (a : address) (tag : Z) (b : bytes) : bytes :=
  word a ++ word tag ++ word 96
    ++ word (Z.of_nat (length b)) ++ b ++ padding (length b).

(** [abi.decode(data, (address, <enum with n members>, bytes))].
    The decoder validates each static value (an address has no bit above
    bit 159, an enum tag is below the number of members), follows the
    offset found in the third slot, and copies [length] bytes from
    there.  Every failure is a revert without data, except a length
    above [2^64-1], which is [Panic(0x41)] raised by the allocation.
    (The allocator also panics when the free-memory pointer plus the
    length passes [2^64]; that depends on the memory in use and is left
    out: it can only turn the final out-of-range revert into a panic for
    a length word close to [2^64].) *)
Definition decode_address_enum_bytes (members : Z) (data : bytes)
  : result (address * Z * bytes) :=
  let len := Z.of_nat (length data) in
  if len <? 96 then Revert EmptyRevert else
  let a := mload data 0 in
  if UINT160_MAX <? a then Revert EmptyRevert else
  let tag := mload data 32 in
  if negb (tag <? members) then Revert EmptyRevert else
  let offset := mload data 64 in
  if UINT64_MAX <? offset then Revert EmptyRevert else
  if negb (offset + 31 <? len) then Revert EmptyRevert else
  let length := mload data (Z.to_nat offset) in
  if UINT64_MAX <? length then Revert (Panic 65) else
  if len <? offset + 32 + length then Revert EmptyRevert else
  Ok (a, tag, take (Z.to_nat length) (drop (Z.to_nat (offset + 32)) data)).

End Abi.

(** ** ComposeMsg (contracts/libraries/ComposeMsg.sol) *)

Module ComposeMsg.

Inductive MessageType : Type :=
  | CROSS_CHAIN_SEND
  | BURNT.

Definition MessageType_eqb (a b : MessageType) : bool :=
  match a, b with
  | CROSS_CHAIN_SEND, CROSS_CHAIN_SEND => true
  | BURNT, BURNT => true
  | _, _ => false
  end.

(** The ABI representation of the enum: its members numbered from 0. *)
Definition tag_of (t : MessageType) : Z :=
  match t with
  | CROSS_CHAIN_SEND => 0
  | BURNT => 1
  end.

Definition of_tag (z : Z) : MessageType :=
  if z =? 0 then CROSS_CHAIN_SEND else BURNT.

Definition members : Z := 2.

Record ComposeData : Type := mkComposeData {
  recipient : address;
  messageType : MessageType;
  additionalData : bytes
}.

Definition encode (recipient : address) (messageType : MessageType)
    (additionalData : bytes) : bytes :=
  Abi.encode_address_enum_bytes recipient (tag_of messageType) additionalData.

Definition encodeCrossChainSend (recipient : address) : bytes :=
  encode recipient CROSS_CHAIN_SEND [].

Definition encodeBurnt (recipient : address) (amount : Z) : bytes :=
  encode recipient BURNT (Abi.encode_uint256 amount).

Definition decode (data : bytes) : result ComposeData :=
  let* '(r, t, b) := Abi.decode_address_enum_bytes members data in
  Ok (mkComposeData r (of_tag t) b).

Definition getRecipient (data : bytes) : result address :=
  let* '(r, _, _) := Abi.decode_address_enum_bytes members data in
  Ok r.

Definition getMessageType (data : bytes) : result MessageType :=
  let* '(_, t, _) := Abi.decode_address_enum_bytes members data in
  Ok (of_tag t).

Definition getAdditionalData (data : bytes) : result bytes :=
  let* '(_, _, b) := Abi.decode_address_enum_bytes members data in
  Ok b.

Definition getBurntAmount (data : bytes) : result Z :=
  let* '(_, t, additionalData) := Abi.decode_address_enum_bytes members data in
  let messageType := of_tag t in
  check require (MessageType_eqb messageType BURNT) "ComposeMsg: not a BURNT message" in
  Abi.decode_uint256 additionalData.

Definition isMessageType (data : bytes) (expectedType : MessageType) : result bool :=
  let* t := getMessageType data in
  Ok (MessageType_eqb t expectedType).

End ComposeMsg.

(** ** Shared contract idioms *)

(** A Solidity [mapping(uint32 => ...)]: unset keys read as zero. *)
Definition mapping_get (m : gmap Z Z) (k : Z) : Z := default 0 (m !! k).

(** Checked [a + b] on [uint256]: overflow is [Panic(0x11)]. *)
Definition checked_add (a b : Z) : result Z :=
  if UINT256_MAX <? a + b then Revert (Panic 17) else Ok (a + b).

(** Ownable's [onlyOwner] modifier. *)
Definition onlyOwner (owner msg_sender : address) : result unit :=
  revert_if (negb (owner =? msg_sender)) (OwnableUnauthorizedAccount msg_sender).

(** ** The transport's envelope codec

    Modelled from the spec: [OFTComposeMsgCodec] is imported by the manager
    from the transport's package and is not among the sources.  The
    envelope is the packed tuple (nonce, source chain, delivered amount,
    compose-from identifier, inner payload); the field widths are those of
    the Solidity types the manager binds the fields to ([uint64], [uint32],
    [uint256], [bytes32]).  Each accessor slices calldata, which reverts
    without data when the slice runs past the end. *)

Module OFTComposeMsgCodec.

Definition NONCE_OFFSET : nat := 8.
Definition SRC_EID_OFFSET : nat := 12.
Definition AMOUNT_LD_OFFSET : nat := 44.
Definition COMPOSE_FROM_OFFSET : nat := 76.

(** [_msg[a:b]] *)
Definition slice (_msg : bytes) (a b : nat) : result bytes :=
  if ((b <? a) || (length _msg <? b))%nat then Revert EmptyRevert
  else Ok (take (b - a) (drop a _msg)).

(** [_msg[a:]] *)
Definition slice_from (_msg : bytes) (a : nat) : result bytes :=
  if (length _msg <? a)%nat then Revert EmptyRevert
  else Ok (drop a _msg).

Definition nonce (_msg : bytes) : result Z :=
  let* b := slice _msg 0 NONCE_OFFSET in Ok (be_value b).

Definition srcEid (_msg : bytes) : result Z :=
  let* b := slice _msg NONCE_OFFSET SRC_EID_OFFSET in Ok (be_value b).

Definition amountLD (_msg : bytes) : result Z :=
  let* b := slice _msg SRC_EID_OFFSET AMOUNT_LD_OFFSET in Ok (be_value b).

Definition composeFrom (_msg : bytes) : result Z :=
  let* b := slice _msg AMOUNT_LD_OFFSET COMPOSE_FROM_OFFSET in Ok (be_value b).

Definition composeMsg (_msg : bytes) : result bytes :=
  slice_from _msg COMPOSE_FROM_OFFSET.

Definition bytes32ToAddress (b : Z) : address := b mod 2 ^ 160.

(** The envelope the transport hands over for the given fields. *)
Definition envelope (nonce srcEid amountLD composeFrom : Z) (payload : bytes) : bytes :=
  be_bytes 8 nonce ++ be_bytes 4 srcEid ++ be_bytes 32 amountLD
    ++ be_bytes 32 composeFrom ++ payload.

End OFTComposeMsgCodec.

(** ** AlphaTokenCrossChainManager *)

Module Manager.
Import ComposeMsg.

Record State : Type := mkState {
  self : address;            (* address(this) *)
  owner : address;
  endpoint : address;
  trustedOFT : address;
  totalProcessed : Z;
  paused : bool
}.

Inductive event : Type :=
  | EndpointUpdated (oldEndpoint newEndpoint : address)
  | TrustedOFTUpdated (oldTrustedOFT newTrustedOFT : address)
  | TokensProcessed (recipient : address) (amount : Z) (messageType : MessageType)
  | PausedStateChanged (paused : bool).

(** The token interface the manager calls.  [safeTransfer token from to
    amount] is the call [IERC20(token).safeTransfer(to, amount)] made by
    the contract at [from]; [L] is the state of the token contracts. *)
Class IERC20 (L : Type) : Type := {
  safeTransfer : address -> address -> address -> Z -> L -> result L
}.

Section Receiver.
Context {L : Type} `{Token : IERC20 L}.

Definition lzCompose (s : State) (ledger : L)
    (msg_sender : address)
    (_oApp : address) (_guid : Z) (_message : bytes)
    (_executor : address) (_extraData : bytes)
  : result (State * L * list event) :=
  (* Check if contract is paused *)
  check revert_if (paused s) ContractPaused in
  (* Security: Verify the message source *)
  check revert_if (negb (msg_sender =? endpoint s)) UnauthorizedSender in
  check revert_if (negb (_oApp =? trustedOFT s)) UntrustedOApp in
  (* Decode the full composed message context *)
  let* nonce := OFTComposeMsgCodec.nonce _message in
  let* srcEid := OFTComposeMsgCodec.srcEid _message in
  let* amountLD := OFTComposeMsgCodec.amountLD _message in
  let* composeFromBytes := OFTComposeMsgCodec.composeFrom _message in
  let originalSender := OFTComposeMsgCodec.bytes32ToAddress composeFromBytes in
  let* composeMsg := OFTComposeMsgCodec.composeMsg _message in
  let* composeData := ComposeMsg.decode composeMsg in
  (* Handle different message types *)
  let* ledger' :=
    if MessageType_eqb (messageType composeData) CROSS_CHAIN_SEND then
      safeTransfer (trustedOFT s) (self s) (recipient composeData) amountLD ledger
    else if MessageType_eqb (messageType composeData) BURNT then
      let* burntAmount := Abi.decode_uint256 (additionalData composeData) in
      safeTransfer (trustedOFT s) (self s) (recipient composeData) amountLD ledger
    else
      Revert UnsupportedMessageType in
  (* Update tracking *)
  let* total := checked_add (totalProcessed s) amountLD in
  Ok (mkState (self s) (owner s) (endpoint s) (trustedOFT s) total (paused s),
      ledger',
      [TokensProcessed (recipient composeData) amountLD (messageType composeData)]).

Definition emergencyWithdraw (s : State) (ledger : L) (msg_sender : address)
    (_token _to : address) (_amount : Z) : result (State * L * list event) :=
  check onlyOwner (owner s) msg_sender in
  check revert_if (_to =? 0) ZeroAddress in
  let* ledger' := safeTransfer _token (self s) _to _amount ledger in
  Ok (s, ledger', []).

(** The state a call leaves behind: its result when it returns, the
    state it started from when it reverts. *)
Definition state_after (s : State) (ledger : L)
    (r : result (State * L * list event)) : State * L :=
  match r with
  | Ok (s', ledger', _) => (s', ledger')
  | Revert _ => (s, ledger)
  end.

End Receiver.

Definition updateEndpoint (s : State) (msg_sender _newEndpoint : address)
  : result (State * list event) :=
  check onlyOwner (owner s) msg_sender in
  check revert_if (_newEndpoint =? 0) ZeroAddress in
  let oldEndpoint := endpoint s in
  Ok (mkState (self s) (owner s) _newEndpoint (trustedOFT s)
        (totalProcessed s) (paused s),
      [EndpointUpdated oldEndpoint _newEndpoint]).

Definition updateTrustedOFT (s : State) (msg_sender _newTrustedOFT : address)
  : result (State * list event) :=
  check onlyOwner (owner s) msg_sender in
  check revert_if (_newTrustedOFT =? 0) ZeroAddress in
  let oldTrustedOFT := trustedOFT s in
  Ok (mkState (self s) (owner s) (endpoint s) _newTrustedOFT
        (totalProcessed s) (paused s),
      [TrustedOFTUpdated oldTrustedOFT _newTrustedOFT]).

Definition setPaused (s : State) (msg_sender : address) (_paused : bool)
  : result (State * list event) :=
  check onlyOwner (owner s) msg_sender in
  Ok (mkState (self s) (owner s) (endpoint s) (trustedOFT s)
        (totalProcessed s) _paused,
      [PausedStateChanged _paused]).

(** The body of [initialize], run on a fresh proxy whose address is
    [this].  The [initializer] modifier (it lets the body run once) and the
    initialisers of the parents are OpenZeppelin's; [__Ownable_init] makes
    [_owner] the owner. *)
Definition initialize (this _endpoint _trustedOFT _owner : address) : result State :=
  check revert_if ((_endpoint =? 0) || (_trustedOFT =? 0) || (_owner =? 0))
          ZeroAddress in
  Ok (mkState this _owner _endpoint _trustedOFT 0 false).

Definition version : string := "1.0.0".

End Manager.

(** ** The receiver past its gate *)

Section ReceiverBody.
Import Manager ComposeMsg.
Context {L : Type} `{Token : IERC20 L}.

(** What the handler does with an envelope once the pause and source
    checks are behind it. *)
Definition process (s : State) (ledger : L) (amount : Z) (payload : bytes)
  : result (State * L * list event) :=
  let* d := ComposeMsg.decode payload in
  let* ledger' :=
    match messageType d with
    | CROSS_CHAIN_SEND =>
        safeTransfer (trustedOFT s) (self s) (recipient d) amount ledger
    | BURNT =>
        let* burntAmount := Abi.decode_uint256 (additionalData d) in
        safeTransfer (trustedOFT s) (self s) (recipient d) amount ledger
    end in
  let* total := checked_add (totalProcessed s) amount in
  Ok (mkState (self s) (owner s) (endpoint s) (trustedOFT s) total (paused s),
      ledger', [TokensProcessed (recipient d) amount (messageType d)]).

End ReceiverBody.

(** ** Runs of the receiver

    A sequence of calls to the functions the manager declares, made by
    arbitrary callers.  A call that reverts leaves the state and the
    ledger as they were and logs nothing; the events of the calls that
    return are collected in order. *)

Section ManagerRuns.
Import Manager.
Context {L : Type} `{Token : IERC20 L}.

Inductive call : Type :=
  | CallLzCompose (msg_sender _oApp : address) (_guid : Z) (_message : bytes)
      (_executor : address) (_extraData : bytes)
  | CallUpdateEndpoint (msg_sender _newEndpoint : address)
  | CallUpdateTrustedOFT (msg_sender _newTrustedOFT : address)
  | CallSetPaused (msg_sender : address) (_paused : bool)
  | CallEmergencyWithdraw (msg_sender _token _to : address) (_amount : Z).

Definition keep_ledger (ledger : L) (r : result (State * list event))
  : result (State * L * list event) :=
  let* '(s, ev) := r in Ok (s, ledger, ev).

Definition perform (s : State) (ledger : L) (c : call)
  : result (State * L * list event) :=
  match c with
  | CallLzCompose sender oApp guid m ex extra =>
      lzCompose s ledger sender oApp guid m ex extra
  | CallUpdateEndpoint sender e => keep_ledger ledger (updateEndpoint s sender e)
  | CallUpdateTrustedOFT sender t => keep_ledger ledger (updateTrustedOFT s sender t)
  | CallSetPaused sender b => keep_ledger ledger (setPaused s sender b)
  | CallEmergencyWithdraw sender token to amount =>
      emergencyWithdraw s ledger sender token to amount
  end.

Definition step (w : State * L * list event) (c : call) : State * L * list event :=
  let '(s, ledger, log) := w in
  match perform s ledger c with
  | Ok (s', ledger', ev) => (s', ledger', log ++ ev)
  | Revert _ => (s, ledger, log)
  end.

Definition run (calls : list call) (w : State * L * list event)
  : State * L * list event :=
  fold_left step calls w.

(** The amounts reported by the [TokensProcessed] events of a log. *)
Definition processed_amounts (log : list event) : Z :=
  fold_right (fun e acc =>
                match e with
                | TokensProcessed _ amount _ => amount + acc
                | _ => acc
                end) 0 log.

End ManagerRuns.

(** ** A token ledger to run the receiver on

    Balances of one ERC20 token in the style of OpenZeppelin's [_transfer]:
    the zero address cannot receive, the sender's balance must cover the
    amount, and the amount moves from one balance to the other. *)

Module Ledger.

Definition balanceOf (l : gmap Z Z) (a : address) : Z := default 0 (l !! a).

Definition transfer (from to : address) (amount : Z) (l : gmap Z Z)
  : result (gmap Z Z) :=
  if to =? 0 then Revert (ERC20InvalidReceiver 0) else
  let fromBalance := balanceOf l from in
  if fromBalance <? amount
  then Revert (ERC20InsufficientBalance from fromBalance amount) else
  let l1 := <[from := fromBalance - amount]> l in
  Ok (<[to := balanceOf l1 to + amount]> l1).

#[global] Instance token : Manager.IERC20 (gmap Z Z) := {
  safeTransfer _ from to amount l := transfer from to amount l
}.

End Ledger.

(** ** AlphaOFT (contracts/AlphaOFT.sol) *)

Module AlphaOFT.
Import ComposeMsg.

Record SendParam : Type := mkSendParam {
  dstEid : Z;
  to : Z;
  amountLD : Z;
  minAmountLD : Z;
  extraOptions : bytes;
  composeMsg : bytes;
  oftCmd : bytes
}.

Record MessagingFee : Type := mkMessagingFee {
  nativeFee : Z;
  lzTokenFee : Z
}.

(** The storage the contract declares or checks itself, and [core]: the
    storage of the inherited OFT (balances, endpoint, ...). *)
Record State (C : Type) : Type := mkState {
  owner : address;
  peers : gmap Z Z;
  crossChainManagers : gmap Z Z;
  core : C
}.
Arguments mkState {C}.
Arguments owner {C}.
Arguments peers {C}.
Arguments crossChainManagers {C}.
Arguments core {C}.

Inductive event : Type :=
  | CrossChainManagerUpdated (dstEid : Z) (oldManager newManager : address)
  | CrossChainSendInitiated (recipient : address) (amount : Z) (dstEid : Z).

(** The two entry points of the inherited OFT that the contract calls on
    itself: [this.quoteSend(sendParam, payInLzToken)] and
    [this.send{value: v}(sendParam, fee, refundAddress)]. *)
Class OFTCore (C : Type) : Type := {
  quoteSend : State C -> SendParam -> bool -> result MessagingFee;
  send : State C -> Z -> SendParam -> MessagingFee -> address -> result (State C)
}.

(** The string literal ["0x"] passed as [oftCmd]: two ASCII characters. *)
Definition oftCmd_literal : bytes := [x30; x78].

Section Initiator.
Context {C : Type} `{Core : OFTCore C}.

Definition _addressToBytes32 (_addr : address) : Z := _addr.

(** The [validDestination] modifier. *)
Definition validDestination (st : State C) (_dstEid : Z) : result unit :=
  check revert_if (_dstEid =? 0) InvalidEndpointId in
  check revert_if (mapping_get (peers st) _dstEid =? 0) NoPeerConfigured in
  revert_if (mapping_get (crossChainManagers st) _dstEid =? 0) NoCrossChainManager.

Definition setCrossChainManager (st : State C) (msg_sender : address)
    (_dstEid : Z) (_crossChainManager : address)
  : result (State C * list event) :=
  check onlyOwner (owner st) msg_sender in
  check revert_if (_dstEid =? 0) InvalidEndpointId in
  check revert_if (_crossChainManager =? 0) ZeroAddress in
  let oldManager := mapping_get (crossChainManagers st) _dstEid in
  Ok (mkState (owner st) (peers st)
        (<[_dstEid := _crossChainManager]> (crossChainManagers st)) (core st),
      [CrossChainManagerUpdated _dstEid oldManager _crossChainManager]).

Definition quoteSendComposed (st : State C)
    (_to : address) (_amount : Z) (_dstEid : Z) (_messageType : MessageType)
    (_payInLzToken : bool) (_extraOptions : bytes) : result MessagingFee :=
  check validDestination st _dstEid in
  let crossChainManager := mapping_get (crossChainManagers st) _dstEid in
  (* Encode the compose message based on message type *)
  let* composeMsg :=
    if MessageType_eqb _messageType CROSS_CHAIN_SEND then
      Ok (ComposeMsg.encodeCrossChainSend _to)
    else if MessageType_eqb _messageType BURNT then
      Ok (ComposeMsg.encodeBurnt _to _amount)
    else
      Revert (ErrorString "Invalid message type") in
  (* Build send parameters *)
  let sendParam := {|
    dstEid := _dstEid;
    to := _addressToBytes32 crossChainManager;
    amountLD := _amount;
    minAmountLD := _amount;
    extraOptions := _extraOptions;
    composeMsg := composeMsg;
    oftCmd := oftCmd_literal
  |} in
  (* Get quote from OFT core *)
  quoteSend st sendParam _payInLzToken.

Definition _sendComposed (st : State C) (msg_sender : address)
    (_to : address) (_amount : Z) (_dstEid : Z) (_messageType : MessageType)
    (_payInLzToken : bool) (_extraOptions : bytes)
  : result (State C * list event) :=
  check validDestination st _dstEid in
  let crossChainManager := mapping_get (crossChainManagers st) _dstEid in
  (* Encode the compose message based on message type *)
  let* composeMsg :=
    if MessageType_eqb _messageType CROSS_CHAIN_SEND then
      Ok (ComposeMsg.encodeCrossChainSend _to)
    else if MessageType_eqb _messageType BURNT then
      Ok (ComposeMsg.encodeBurnt _to _amount)
    else
      Revert (ErrorString "Invalid message type") in
  (* Build send parameters *)
  let sendParam := {|
    dstEid := _dstEid;
    to := _addressToBytes32 crossChainManager;
    amountLD := _amount;
    minAmountLD := _amount;
    extraOptions := _extraOptions;
    composeMsg := composeMsg;
    oftCmd := oftCmd_literal
  |} in
  (* Quote the operation first *)
  let* msgFee := quoteSend st sendParam _payInLzToken in
  (* Execute the cross-chain send using the public interface *)
  let feeValue := if _payInLzToken then 0 else nativeFee msgFee in
  let* st' := send st feeValue sendParam msgFee msg_sender in
  (* Emit event *)
  Ok (st', [CrossChainSendInitiated _to _amount _dstEid]).

Definition sendComposed (st : State C) (msg_sender : address)
    (_to : address) (_amount : Z) (_dstEid : Z) (_messageType : MessageType)
    (_payInLzToken : bool) (_extraOptions : bytes)
  : result (State C * list event) :=
  check onlyOwner (owner st) msg_sender in
  _sendComposed st msg_sender _to _amount _dstEid _messageType
    _payInLzToken _extraOptions.

End Initiator.

End AlphaOFT.

(** ** The request of a composed send, as the spec words it

    The outbound request addressed to the manager registered for the
    destination chain: the amount is both [amountLD] and [minAmountLD], and
    the compose payload is built by the codec according to the message
    type.  [quoteSendComposed] and [_sendComposed] are compared with it. *)

Section Request.
Import AlphaOFT ComposeMsg.
Context {C : Type}.

Definition compose_payload (_to : address) (_amount : Z) (t : MessageType) : bytes :=
  match t with
  | CROSS_CHAIN_SEND => ComposeMsg.encodeCrossChainSend _to
  | BURNT => ComposeMsg.encodeBurnt _to _amount
  end.

Definition send_request (st : State C) (_to : address) (_amount _dstEid : Z)
    (t : MessageType) (_extraOptions : bytes) : SendParam :=
  {| dstEid := _dstEid;
     to := mapping_get (crossChainManagers st) _dstEid;
     amountLD := _amount;
     minAmountLD := _amount;
     extraOptions := _extraOptions;
     composeMsg := compose_payload _to _amount t;
     oftCmd := oftCmd_literal |}.

End Request.

(** ** An OFT core that records what it is asked to send

    [quoteSend] answers with a fixed fee and [send] appends its arguments
    to the core state, so that a run of the initiator shows the request it
    submitted. *)

Module Recorder.
Import AlphaOFT.

Definition sent : Type := (Z * SendParam * MessagingFee * address)%type.

Definition fee : MessagingFee := mkMessagingFee 5 0.

#[global] Instance core : OFTCore (list sent) := {
  quoteSend _ _ _ := Ok fee;
  send st value sendParam msgFee refundAddress :=
    Ok (mkState (owner st) (peers st) (crossChainManagers st)
          ((value, sendParam, msgFee, refundAddress) :: AlphaOFT.core st))
}.

End Recorder.

(** ** A deployment to run the contracts on

    Transport endpoint [T1], trusted origin OFT [O1], an owner, a manager
    that holds 1000 units of the token, and three envelopes that deliver
    100 units each: a [CROSS_CHAIN_SEND], a [BURNT] whose embedded amount
    is 7, and a hand-made payload with tag 2. *)

Module Scenario.

Definition T1 : address := 100.
Definition T2 : address := 101.
Definition O1 : address := 200.
Definition O2 : address := 201.
Definition admin : address := 1.
Definition manager : address := 500.
Definition R : address := 48879.

Definition active : Manager.State :=
  Manager.mkState manager admin T1 O1 0 false.

Definition halted : Manager.State :=
  Manager.mkState manager admin T1 O1 0 true.

Definition funds : gmap Z Z := {[ manager := 1000 ]}.

Definition send_envelope : bytes :=
  OFTComposeMsgCodec.envelope 1 30101 100 777 (ComposeMsg.encodeCrossChainSend R).

Definition burnt_envelope : bytes :=
  OFTComposeMsgCodec.envelope 2 30101 100 777 (ComposeMsg.encodeBurnt R 7).

Definition tag2_payload : bytes := Abi.encode_address_enum_bytes R 2 [].

Definition tag2_envelope : bytes :=
  OFTComposeMsgCodec.envelope 3 30101 100 777 tag2_payload.

(** The token side: chain 30101 has a peer and a registered manager;
    the other two states miss one of them. *)
Definition D : Z := 30101.

Definition wired : AlphaOFT.State (list Recorder.sent) :=
  AlphaOFT.mkState admin {[ D := 12345 ]} {[ D := manager ]} [].

Definition no_peer : AlphaOFT.State (list Recorder.sent) :=
  AlphaOFT.mkState admin ∅ {[ D := manager ]} [].

Definition no_manager : AlphaOFT.State (list Recorder.sent) :=
  AlphaOFT.mkState admin {[ D := 12345 ]} ∅ [].

End Scenario.

(** * Properties *)

(** ** Bytes and big-endian words *)

Lemma Z_of_byte_range (b : byte) : 0 <= Z_of_byte b < 256.
Proof.
  unfold Z_of_byte. pose proof (Byte.to_N_bounded b). lia.
Qed.

Lemma Z_of_byte_of_Z (z : Z) : Z_of_byte (byte_of_Z z) = z mod 256.
Proof.
  unfold Z_of_byte, byte_of_Z.
  assert (Hr : 0 <= z mod 256 < 256) by (apply Z.mod_pos_bound; lia).
  destruct (Byte.of_N (Z.to_N (z mod 256))) as [b|] eqn:Hb; simpl.
  - apply Byte.to_of_N in Hb. rewrite Hb. lia.
  - apply Byte.of_N_None_iff in Hb. lia.
Qed.

Lemma byte_of_Z_of_byte (b : byte) : byte_of_Z (Z_of_byte b) = b.
Proof.
  unfold byte_of_Z. pose proof (Z_of_byte_range b) as Hr.
  rewrite Z.mod_small by exact Hr.
  unfold Z_of_byte. rewrite N2Z.id, Byte.of_to_N. reflexivity.
Qed.

Lemma length_be_bytes (w : nat) (n : Z) : length (be_bytes w n) = w.
Proof.
  revert n. induction w as [|w IH]; intros n; simpl; [reflexivity|].
  rewrite length_app, IH. simpl. lia.
Qed.

Lemma be_value_snoc (l : bytes) (b : byte) :
  be_value (l ++ [b]) = be_value l * 256 + Z_of_byte b.
Proof. unfold be_value. rewrite fold_left_app. reflexivity. Qed.

Lemma be_value_app (l1 l2 : bytes) :
  be_value (l1 ++ l2) = be_value l1 * 256 ^ Z.of_nat (length l2) + be_value l2.
Proof.
  induction l2 as [|b l2 IH] using rev_ind.
  - rewrite app_nil_r. simpl. unfold be_value at 3. simpl. lia.
  - rewrite app_assoc, !be_value_snoc, IH, length_app. simpl.
    replace (Z.of_nat (length l2 + 1)) with (Z.succ (Z.of_nat (length l2))) by lia.
    rewrite Z.pow_succ_r by lia. ring.
Qed.

Lemma be_value_range (l : bytes) : 0 <= be_value l < 256 ^ Z.of_nat (length l).
Proof.
  induction l as [|b l IH] using rev_ind.
  - unfold be_value. simpl. lia.
  - rewrite be_value_snoc, length_app. simpl.
    replace (Z.of_nat (length l + 1)) with (Z.succ (Z.of_nat (length l))) by lia.
    rewrite Z.pow_succ_r by lia.
    pose proof (Z_of_byte_range b). lia.
Qed.

Lemma be_value_be_bytes (w : nat) (n : Z) :
  be_value (be_bytes w n) = n mod 256 ^ Z.of_nat w.
Proof.
  revert n. induction w as [|w IH]; intros n.
  - simpl. unfold be_value. simpl. now rewrite Z.mod_1_r.
  - cbn [be_bytes]. rewrite be_value_snoc, IH, Z_of_byte_of_Z.
    replace (Z.of_nat (S w)) with (Z.succ (Z.of_nat w)) by lia.
    rewrite Z.pow_succ_r by lia.
    assert (Hp : 0 < 256 ^ Z.of_nat w) by (apply Z.pow_pos_nonneg; lia).
    rewrite Z.rem_mul_r by lia. lia.
Qed.

Lemma be_bytes_be_value (l : bytes) : be_bytes (length l) (be_value l) = l.
Proof.
  induction l as [|b l IH] using rev_ind; [reflexivity|].
  rewrite length_app, be_value_snoc. simpl length.
  replace (length l + 1)%nat with (S (length l)) by lia.
  cbn [be_bytes]. pose proof (Z_of_byte_range b) as Hb.
  replace ((be_value l * 256 + Z_of_byte b) / 256) with (be_value l)
    by (apply Z.div_unique with (r := Z_of_byte b); lia).
  rewrite IH. f_equal. f_equal.
  unfold byte_of_Z.
  replace ((be_value l * 256 + Z_of_byte b) mod 256) with (Z_of_byte b)
    by (apply Z.mod_unique with (q := be_value l); lia).
  unfold Z_of_byte. rewrite N2Z.id, Byte.of_to_N. reflexivity.
Qed.

Lemma be_value_inj (l1 l2 : bytes) :
  length l1 = length l2 -> be_value l1 = be_value l2 -> l1 = l2.
Proof.
  intros Hl Hv. rewrite <- (be_bytes_be_value l1), <- (be_bytes_be_value l2).
  now rewrite Hl, Hv.
Qed.

(** ** Reading slots of an ABI encoding *)

Lemma pow256_32 : 256 ^ Z.of_nat 32 = 2 ^ 256.
Proof. reflexivity. Qed.

Lemma length_word (n : Z) : length (Abi.word n) = 32%nat.
Proof. apply length_be_bytes. Qed.

Lemma be_value_word (n : Z) : is_uint256 n -> be_value (Abi.word n) = n.
Proof.
  intros Hn. unfold Abi.word. rewrite be_value_be_bytes, pow256_32.
  apply Z.mod_small. exact Hn.
Qed.

Lemma mload_range (data : bytes) (off : nat) : 0 <= Abi.mload data off < 2 ^ 256.
Proof.
  unfold Abi.mload.
  pose proof (be_value_range (take 32 (drop off data))) as Hr.
  assert (Hl : (length (take 32 (drop off data)) <= 32)%nat)
    by (rewrite length_take; lia).
  assert (Hp : 256 ^ Z.of_nat (length (take 32 (drop off data))) <= 256 ^ Z.of_nat 32)
    by (apply Z.pow_le_mono_r; lia).
  rewrite pow256_32 in Hp. lia.
Qed.

Lemma mload_word (n : Z) (rest : bytes) :
  is_uint256 n -> Abi.mload (Abi.word n ++ rest) 0 = n.
Proof.
  intros Hn. unfold Abi.mload. rewrite drop_0.
  rewrite take_app_length' by (symmetry; apply length_word).
  now apply be_value_word.
Qed.

Lemma mload_skip_word (n : Z) (rest : bytes) (k : nat) :
  Abi.mload (Abi.word n ++ rest) (32 + k) = Abi.mload rest k.
Proof.
  unfold Abi.mload. rewrite <- (length_word n) at 2. now rewrite drop_app_add.
Qed.

Lemma drop_skip_word (n : Z) (rest : bytes) (k : nat) :
  drop (32 + k) (Abi.word n ++ rest) = drop k rest.
Proof. rewrite <- (length_word n) at 1. now rewrite drop_app_add. Qed.

Lemma mload_take (data : bytes) (n off : nat) :
  (off + 32 <= n)%nat -> Abi.mload (take n data) off = Abi.mload data off.
Proof.
  intros Hn. unfold Abi.mload.
  rewrite !take_drop_commute, take_take.
  replace (Nat.min (off + 32) n) with (off + 32)%nat by lia. reflexivity.
Qed.

(** The four leading slots of an encoding and what follows them. *)
Section Slots.
Variables (a t o l : Z) (tail : bytes).
Hypotheses (Ha : is_uint256 a) (Ht : is_uint256 t)
           (Ho : is_uint256 o) (Hl : is_uint256 l).

Let data := Abi.word a ++ Abi.word t ++ Abi.word o ++ Abi.word l ++ tail.

Lemma slot0 : Abi.mload data 0 = a.
Proof. now apply mload_word. Qed.

Lemma slot1 : Abi.mload data 32 = t.
Proof.
  unfold data. rewrite (mload_skip_word a _ 0). now apply mload_word.
Qed.

Lemma slot2 : Abi.mload data 64 = o.
Proof.
  unfold data. rewrite (mload_skip_word a _ 32), (mload_skip_word t _ 0).
  now apply mload_word.
Qed.

Lemma slot3 : Abi.mload data 96 = l.
Proof.
  unfold data.
  rewrite (mload_skip_word a _ 64), (mload_skip_word t _ 32),
    (mload_skip_word o _ 0).
  now apply mload_word.
Qed.

Lemma after_slots : drop 128 data = tail.
Proof.
  unfold data.
  rewrite (drop_skip_word a _ 96), (drop_skip_word t _ 64),
    (drop_skip_word o _ 32), (drop_skip_word l _ 0).
  apply drop_0.
Qed.

Lemma length_slots : length data = (128 + length tail)%nat.
Proof. unfold data. rewrite !length_app, !length_word. lia. Qed.
End Slots.

(** ** The codec on its own encodings *)

Ltac unfold_ranges :=
  unfold is_address, is_uint256, UINT64_MAX, UINT160_MAX, UINT256_MAX,
    ComposeMsg.members in *.

(** Settle the next comparison of a decoder by arithmetic. *)
Ltac ltb_false := rewrite (proj2 (Z.ltb_ge _ _)) by (unfold_ranges; lia).
Ltac ltb_true := rewrite (proj2 (Z.ltb_lt _ _)) by (unfold_ranges; lia).

(** Decoding an encoding returns the encoded triple, and bytes that
    follow the encoding are never read. *)
Lemma decode_encode_app (members a tag : Z) (b extra : bytes) :
  is_address a -> 0 <= tag < members -> is_uint256 tag ->
  Z.of_nat (length b) <= UINT64_MAX ->
  Abi.decode_address_enum_bytes members
    (Abi.encode_address_enum_bytes a tag b ++ extra) = Ok (a, tag, b).
Proof.
  intros Ha Htag Htag' Hb.
  unfold Abi.encode_address_enum_bytes. rewrite <- !app_assoc.
  set (tail := b ++ Abi.padding (length b) ++ extra).
  set (l := Z.of_nat (length b)) in *.
  assert (Ha' : is_uint256 a) by (unfold_ranges; lia).
  assert (Ho : is_uint256 96) by (unfold_ranges; lia).
  assert (Hl : is_uint256 l) by (unfold_ranges; lia).
  assert (Htl : (length b <= length tail)%nat)
    by (unfold tail; rewrite length_app; lia).
  unfold Abi.decode_address_enum_bytes.
  rewrite slot0, slot1, slot2, length_slots by assumption.
  change (Z.to_nat 96) with 96%nat. change (Z.to_nat (96 + 32)) with 128%nat.
  rewrite slot3, after_slots by assumption.
  ltb_false. ltb_false. ltb_true. cbn [negb].
  ltb_false. ltb_true. cbn [negb]. ltb_false.
  rewrite (proj2 (Z.ltb_ge _ _)) by lia.
  unfold l, tail. rewrite Nat2Z.id, take_app_length. reflexivity.
Qed.

Lemma decode_encode (members a tag : Z) (b : bytes) :
  is_address a -> 0 <= tag < members -> is_uint256 tag ->
  Z.of_nat (length b) <= UINT64_MAX ->
  Abi.decode_address_enum_bytes members (Abi.encode_address_enum_bytes a tag b)
  = Ok (a, tag, b).
Proof.
  intros. rewrite <- (app_nil_r (Abi.encode_address_enum_bytes a tag b)).
  now apply decode_encode_app.
Qed.

Lemma decode_uint256_encode (n : Z) :
  is_uint256 n -> Abi.decode_uint256 (Abi.encode_uint256 n) = Ok n.
Proof.
  intros Hn. unfold Abi.decode_uint256, Abi.encode_uint256.
  rewrite length_word. cbn [Nat.ltb Nat.leb].
  rewrite <- (app_nil_r (Abi.word n)). now rewrite mload_word.
Qed.

Lemma tag_of_range (t : ComposeMsg.MessageType) :
  0 <= ComposeMsg.tag_of t < ComposeMsg.members.
Proof. destruct t; unfold ComposeMsg.members; simpl; lia. Qed.

Lemma of_tag_tag_of (t : ComposeMsg.MessageType) :
  ComposeMsg.of_tag (ComposeMsg.tag_of t) = t.
Proof. now destruct t. Qed.

Lemma decode_encode_ComposeMsg (r : address) (t : ComposeMsg.MessageType)
    (b extra : bytes) :
  is_address r -> Z.of_nat (length b) <= UINT64_MAX ->
  ComposeMsg.decode (ComposeMsg.encode r t b ++ extra)
  = Ok (ComposeMsg.mkComposeData r t b).
Proof.
  intros Hr Hb. unfold ComposeMsg.decode, ComposeMsg.encode.
  pose proof (tag_of_range t) as Ht.
  rewrite decode_encode_app; [| assumption | assumption | unfold_ranges; lia | assumption].
  cbn [bind]. now rewrite of_tag_tag_of.
Qed.

Lemma length_encode_uint256 (n : Z) : length (Abi.encode_uint256 n) = 32%nat.
Proof. apply length_word. Qed.

Lemma decode_encodeBurnt (r : address) (amount : Z) (extra : bytes) :
  is_address r ->
  ComposeMsg.decode (ComposeMsg.encodeBurnt r amount ++ extra)
  = Ok (ComposeMsg.mkComposeData r ComposeMsg.BURNT (Abi.encode_uint256 amount)).
Proof.
  intros Hr. unfold ComposeMsg.encodeBurnt.
  apply decode_encode_ComposeMsg; [assumption|].
  rewrite length_encode_uint256. unfold_ranges. lia.
Qed.

Lemma decode_encodeCrossChainSend (r : address) (extra : bytes) :
  is_address r ->
  ComposeMsg.decode (ComposeMsg.encodeCrossChainSend r ++ extra)
  = Ok (ComposeMsg.mkComposeData r ComposeMsg.CROSS_CHAIN_SEND []).
Proof.
  intros Hr. unfold ComposeMsg.encodeCrossChainSend.
  apply decode_encode_ComposeMsg; [assumption|].
  simpl length. unfold_ranges. lia.
Qed.

Lemma getBurntAmount_encode (r : address) (t : ComposeMsg.MessageType) (b : bytes) :
  is_address r -> Z.of_nat (length b) <= UINT64_MAX ->
  ComposeMsg.getBurntAmount (ComposeMsg.encode r t b)
  = match t with
    | ComposeMsg.BURNT => Abi.decode_uint256 b
    | ComposeMsg.CROSS_CHAIN_SEND =>
        Revert (ErrorString "ComposeMsg: not a BURNT message")
    end.
Proof.
  intros Hr Hb. unfold ComposeMsg.getBurntAmount, ComposeMsg.encode.
  pose proof (tag_of_range t) as Ht.
  rewrite decode_encode; [| assumption | assumption | unfold_ranges; lia | assumption].
  cbn [bind]. rewrite of_tag_tag_of. now destruct t.
Qed.

(** ** Round trips of the codec *)

(** C6: for every address [recipient] and every [uint256] [amount], decoding
    [encodeBurnt(recipient, amount)] gives back [recipient], and
    [getBurntAmount] of the same bytes gives back [amount]. *)
Theorem encodeBurnt_round_trip (recipient : address) (amount : Z) :
  is_address recipient -> is_uint256 amount ->
  (let* d := ComposeMsg.decode (ComposeMsg.encodeBurnt recipient amount) in
   Ok (ComposeMsg.recipient d)) = Ok recipient
  /\ ComposeMsg.getBurntAmount (ComposeMsg.encodeBurnt recipient amount) = Ok amount.
Proof.
  intros Hr Ha. split.
  - rewrite <- (app_nil_r (ComposeMsg.encodeBurnt recipient amount)).
    now rewrite decode_encodeBurnt.
  - unfold ComposeMsg.encodeBurnt. rewrite getBurntAmount_encode.
    + now apply decode_uint256_encode.
    + assumption.
    + rewrite length_encode_uint256. unfold_ranges. lia.
Qed.

Lemma encodeBurnt_round_trip_witness :
  (is_address 48879 /\ is_uint256 1000)
  /\ ((let* d := ComposeMsg.decode (ComposeMsg.encodeBurnt 48879 1000) in
       Ok (ComposeMsg.recipient d)) = Ok 48879
      /\ ComposeMsg.getBurntAmount (ComposeMsg.encodeBurnt 48879 1000) = Ok 1000).
Proof.
  assert (Hr : is_address 48879) by (unfold is_address; lia).
  assert (Ha : is_uint256 1000) by (unfold is_uint256; lia).
  split; [split; assumption|].
  exact (encodeBurnt_round_trip 48879 1000 Hr Ha).
Defined.

(** C7: for every address [recipient], [encodeCrossChainSend(recipient)]
    decodes to that recipient with message type [CROSS_CHAIN_SEND] and empty
    additional data, and [getBurntAmount] of it fails with the library's
    wrong-message-type failure, [require(..., "ComposeMsg: not a BURNT
    message")]. *)
Theorem encodeCrossChainSend_round_trip (recipient : address) :
  is_address recipient ->
  ComposeMsg.decode (ComposeMsg.encodeCrossChainSend recipient)
  = Ok (ComposeMsg.mkComposeData recipient ComposeMsg.CROSS_CHAIN_SEND [])
  /\ ComposeMsg.getBurntAmount (ComposeMsg.encodeCrossChainSend recipient)
     = Revert (ErrorString "ComposeMsg: not a BURNT message").
Proof.
  intros Hr. split.
  - rewrite <- (app_nil_r (ComposeMsg.encodeCrossChainSend recipient)).
    now apply decode_encodeCrossChainSend.
  - unfold ComposeMsg.encodeCrossChainSend. rewrite getBurntAmount_encode.
    + reflexivity.
    + assumption.
    + simpl length. unfold_ranges. lia.
Qed.

Lemma encodeCrossChainSend_round_trip_witness :
  is_address 48879
  /\ ComposeMsg.decode (ComposeMsg.encodeCrossChainSend 48879)
     = Ok (ComposeMsg.mkComposeData 48879 ComposeMsg.CROSS_CHAIN_SEND [])
  /\ ComposeMsg.getBurntAmount (ComposeMsg.encodeCrossChainSend 48879)
     = Revert (ErrorString "ComposeMsg: not a BURNT message").
Proof.
  assert (Hr : is_address 48879) by (unfold is_address; lia).
  split; [assumption|].
  exact (encodeCrossChainSend_round_trip 48879 Hr).
Defined.

(** ** The envelope accessors *)

Lemma slice_ok (m : bytes) (a b : nat) :
  (a <= b)%nat -> (b <= length m)%nat ->
  OFTComposeMsgCodec.slice m a b = Ok (take (b - a) (drop a m)).
Proof.
  intros Hab Hb. unfold OFTComposeMsgCodec.slice.
  destruct (Nat.ltb_spec b a); [lia|].
  destruct (Nat.ltb_spec (length m) b); [lia|]. reflexivity.
Qed.

Lemma composeMsg_Ok_length (m payload : bytes) :
  OFTComposeMsgCodec.composeMsg m = Ok payload ->
  (76 <= length m)%nat /\ payload = drop 76 m.
Proof.
  unfold OFTComposeMsgCodec.composeMsg, OFTComposeMsgCodec.slice_from,
    OFTComposeMsgCodec.COMPOSE_FROM_OFFSET.
  destruct (Nat.ltb_spec (length m) 76) as [Hlt|Hge]; intros H; inversion H.
  split; [lia|reflexivity].
Qed.

Lemma composeMsg_Ok (m : bytes) :
  (76 <= length m)%nat -> OFTComposeMsgCodec.composeMsg m = Ok (drop 76 m).
Proof.
  intros H.
  unfold OFTComposeMsgCodec.composeMsg, OFTComposeMsgCodec.slice_from,
    OFTComposeMsgCodec.COMPOSE_FROM_OFFSET.
  destruct (Nat.ltb_spec (length m) 76); [lia|reflexivity].
Qed.

(** An envelope long enough to hold an inner payload has all of its fixed
    fields. *)
Lemma envelope_fields (m : bytes) :
  (76 <= length m)%nat ->
  OFTComposeMsgCodec.nonce m = Ok (be_value (take 8 (drop 0 m)))
  /\ OFTComposeMsgCodec.srcEid m = Ok (be_value (take 4 (drop 8 m)))
  /\ OFTComposeMsgCodec.amountLD m = Ok (be_value (take 32 (drop 12 m)))
  /\ OFTComposeMsgCodec.composeFrom m = Ok (be_value (take 32 (drop 44 m))).
Proof.
  intros H.
  unfold OFTComposeMsgCodec.nonce, OFTComposeMsgCodec.srcEid,
    OFTComposeMsgCodec.amountLD, OFTComposeMsgCodec.composeFrom,
    OFTComposeMsgCodec.NONCE_OFFSET, OFTComposeMsgCodec.SRC_EID_OFFSET,
    OFTComposeMsgCodec.AMOUNT_LD_OFFSET, OFTComposeMsgCodec.COMPOSE_FROM_OFFSET.
  rewrite !slice_ok by lia. repeat split; reflexivity.
Qed.

(** ** The receiver *)

Section ReceiverFacts.
Import Manager ComposeMsg.
Context {L : Type} `{Token : IERC20 L}.

Lemma lzCompose_paused s ledger sender oApp guid m ex extra :
  paused s = true ->
  lzCompose s ledger sender oApp guid m ex extra = Revert ContractPaused.
Proof. intros H. unfold lzCompose. now rewrite H. Qed.

Lemma lzCompose_wrong_sender s ledger sender oApp guid m ex extra :
  paused s = false -> sender <> endpoint s ->
  lzCompose s ledger sender oApp guid m ex extra = Revert UnauthorizedSender.
Proof.
  intros Hp Hs. unfold lzCompose. rewrite Hp. cbn [revert_if bind].
  destruct (Z.eqb_spec sender (endpoint s)); [contradiction|reflexivity].
Qed.

Lemma lzCompose_wrong_origin s ledger sender oApp guid m ex extra :
  paused s = false -> sender = endpoint s -> oApp <> trustedOFT s ->
  lzCompose s ledger sender oApp guid m ex extra = Revert UntrustedOApp.
Proof.
  intros Hp Hs Ho. unfold lzCompose. rewrite Hp, Hs, Z.eqb_refl.
  cbn [revert_if bind negb].
  destruct (Z.eqb_spec oApp (trustedOFT s)); [contradiction|reflexivity].
Qed.

Lemma lzCompose_short_envelope s ledger sender oApp guid m ex extra :
  paused s = false -> sender = endpoint s -> oApp = trustedOFT s ->
  (length m < 76)%nat ->
  lzCompose s ledger sender oApp guid m ex extra = Revert EmptyRevert.
Proof.
  intros Hp Hs Ho Hm. unfold lzCompose. rewrite Hp, Hs, Ho, !Z.eqb_refl.
  cbn [revert_if bind negb].
  unfold OFTComposeMsgCodec.nonce, OFTComposeMsgCodec.srcEid,
    OFTComposeMsgCodec.amountLD, OFTComposeMsgCodec.composeFrom,
    OFTComposeMsgCodec.composeMsg, OFTComposeMsgCodec.slice,
    OFTComposeMsgCodec.slice_from,
    OFTComposeMsgCodec.NONCE_OFFSET, OFTComposeMsgCodec.SRC_EID_OFFSET,
    OFTComposeMsgCodec.AMOUNT_LD_OFFSET, OFTComposeMsgCodec.COMPOSE_FROM_OFFSET.
  repeat match goal with
  | |- context [Nat.ltb ?a ?b] => destruct (Nat.ltb_spec a b) as [?|?]; cbn [orb bind]
  end; try reflexivity; lia.
Qed.

Lemma lzCompose_authenticated s ledger sender oApp guid m ex extra :
  paused s = false -> sender = endpoint s -> oApp = trustedOFT s ->
  (76 <= length m)%nat ->
  lzCompose s ledger sender oApp guid m ex extra
  = process s ledger (be_value (take 32 (drop 12 m))) (drop 76 m).
Proof.
  intros Hp Hs Ho Hm. unfold lzCompose, process.
  rewrite Hp, Hs, Ho, !Z.eqb_refl. cbn [revert_if bind negb].
  destruct (envelope_fields m Hm) as (-> & -> & -> & ->).
  rewrite (composeMsg_Ok m Hm). cbn [bind].
  destruct (ComposeMsg.decode (drop 76 m)) as [d|e]; [|reflexivity].
  cbn [bind]. now destruct (messageType d).
Qed.

(** Every way the handler can return. *)
Lemma lzCompose_Ok_inv s ledger sender oApp guid m ex extra s' ledger' ev :
  lzCompose s ledger sender oApp guid m ex extra = Ok (s', ledger', ev) ->
  paused s = false /\ sender = endpoint s /\ oApp = trustedOFT s
  /\ (76 <= length m)%nat
  /\ process s ledger (be_value (take 32 (drop 12 m))) (drop 76 m)
     = Ok (s', ledger', ev).
Proof.
  intros H.
  destruct (paused s) eqn:Hp; [now rewrite lzCompose_paused in H|].
  destruct (Z.eq_dec sender (endpoint s)) as [Hs|Hs];
    [|now rewrite lzCompose_wrong_sender in H].
  destruct (Z.eq_dec oApp (trustedOFT s)) as [Ho|Ho];
    [|now rewrite lzCompose_wrong_origin in H].
  destruct (Nat.le_gt_cases 76 (length m)) as [Hm|Hm];
    [|now rewrite lzCompose_short_envelope in H].
  rewrite lzCompose_authenticated in H by assumption. auto.
Qed.

Lemma process_Ok_inv s ledger amount payload s' ledger' ev :
  process s ledger amount payload = Ok (s', ledger', ev) ->
  exists d,
    ComposeMsg.decode payload = Ok d
    /\ (messageType d = BURNT ->
        exists burnt, Abi.decode_uint256 (additionalData d) = Ok burnt)
    /\ safeTransfer (trustedOFT s) (self s) (recipient d) amount ledger = Ok ledger'
    /\ totalProcessed s + amount <= UINT256_MAX
    /\ s' = mkState (self s) (owner s) (endpoint s) (trustedOFT s)
              (totalProcessed s + amount) (paused s)
    /\ ev = [TokensProcessed (recipient d) amount (messageType d)].
Proof.
  unfold process. intros H.
  destruct (ComposeMsg.decode payload) as [d|e]; [|discriminate].
  cbn [bind] in H. exists d. split; [reflexivity|].
  assert (Ht : exists l1,
    safeTransfer (trustedOFT s) (self s) (recipient d) amount ledger = Ok l1
    /\ (messageType d = BURNT ->
        exists burnt, Abi.decode_uint256 (additionalData d) = Ok burnt)
    /\ (let* total := checked_add (totalProcessed s) amount in
        Ok (mkState (self s) (owner s) (endpoint s) (trustedOFT s) total (paused s),
            l1, [TokensProcessed (recipient d) amount (messageType d)]))
       = Ok (s', ledger', ev)).
  { destruct (messageType d).
    - destruct (safeTransfer _ _ _ _ _) as [l1|e]; [|discriminate].
      exists l1. repeat split; [discriminate | exact H].
    - destruct (Abi.decode_uint256 (additionalData d)) as [b|e]; [|discriminate].
      cbn [bind] in H.
      destruct (safeTransfer _ _ _ _ _) as [l1|e]; [|discriminate].
      exists l1. repeat split; [intros _; now exists b | exact H]. }
  destruct Ht as (l1 & Hl1 & Hb & Hk). unfold checked_add in Hk.
  destruct (Z.ltb_spec UINT256_MAX (totalProcessed s + amount)); [discriminate|].
  cbn [bind] in Hk. inversion Hk; subst. repeat split; auto.
Qed.

Lemma process_Ok s ledger amount payload d ledger' :
  ComposeMsg.decode payload = Ok d ->
  (messageType d = BURNT -> (32 <= length (additionalData d))%nat) ->
  safeTransfer (trustedOFT s) (self s) (recipient d) amount ledger = Ok ledger' ->
  totalProcessed s + amount <= UINT256_MAX ->
  process s ledger amount payload
  = Ok (mkState (self s) (owner s) (endpoint s) (trustedOFT s)
          (totalProcessed s + amount) (paused s),
        ledger', [TokensProcessed (recipient d) amount (messageType d)]).
Proof.
  intros Hd Hb Ht Hsum. unfold process. rewrite Hd. cbn [bind].
  assert (Hl : (let* ledger' :=
      match messageType d with
      | CROSS_CHAIN_SEND =>
          safeTransfer (trustedOFT s) (self s) (recipient d) amount ledger
      | BURNT =>
          let* burntAmount := Abi.decode_uint256 (additionalData d) in
          safeTransfer (trustedOFT s) (self s) (recipient d) amount ledger
      end in Ok ledger') = Ok ledger').
  { destruct (messageType d).
    - now rewrite Ht.
    - unfold Abi.decode_uint256.
      destruct (Nat.ltb_spec (length (additionalData d)) 32);
        [specialize (Hb eq_refl); lia|].
      cbn [bind]. now rewrite Ht. }
  destruct (match messageType d with CROSS_CHAIN_SEND => _ | BURNT => _ end)
    as [l1|e]; [|discriminate].
  cbn [bind] in Hl. inversion Hl; subst. cbn [bind].
  unfold checked_add.
  destruct (Z.ltb_spec UINT256_MAX (totalProcessed s + amount)); [lia|].
  reflexivity.
Qed.

End ReceiverFacts.


(** A transfer on the ledger moves the amount between the two balances. *)
Lemma transfer_moves_amount (from to : address) (amount : Z) (l l' : gmap Z Z) :
  Ledger.transfer from to amount l = Ok l' -> from <> to ->
  Ledger.balanceOf l' to = Ledger.balanceOf l to + amount
  /\ Ledger.balanceOf l' from = Ledger.balanceOf l from - amount.
Proof.
  unfold Ledger.transfer. intros H Hne.
  destruct (to =? 0); [discriminate|].
  destruct (Ledger.balanceOf l from <? amount); [discriminate|].
  injection H as <-. unfold Ledger.balanceOf.
  rewrite lookup_insert_eq, !lookup_insert_ne, lookup_insert_eq by congruence.
  simpl. split; reflexivity.
Qed.

(** On the ledger, a compose message that is processed credits the
    recipient of the payload with the delivered amount and debits the
    manager by it. *)
Lemma lzCompose_credits_recipient (s s' : Manager.State) (l l' : gmap Z Z)
    (sender oApp : address) (guid : Z) (m : bytes) (ex : address)
    (extra : bytes) (ev : list Manager.event) :
  Manager.lzCompose s l sender oApp guid m ex extra = Ok (s', l', ev) ->
  exists (amount : Z) (d : ComposeMsg.ComposeData),
    OFTComposeMsgCodec.amountLD m = Ok amount
    /\ ComposeMsg.decode (drop 76 m) = Ok d
    /\ (ComposeMsg.recipient d <> Manager.self s ->
        Ledger.balanceOf l' (ComposeMsg.recipient d)
        = Ledger.balanceOf l (ComposeMsg.recipient d) + amount
        /\ Ledger.balanceOf l' (Manager.self s)
           = Ledger.balanceOf l (Manager.self s) - amount).
Proof.
  intros H.
  destruct (lzCompose_Ok_inv _ _ _ _ _ _ _ _ _ _ _ H) as (_ & _ & _ & Hlen & Hproc).
  destruct (process_Ok_inv _ _ _ _ _ _ _ Hproc) as (d & Hd & _ & Ht & _).
  destruct (envelope_fields m Hlen) as (_ & _ & Ha & _).
  exists (be_value (take 32 (drop 12 m))), d.
  split; [exact Ha|]. split; [exact Hd|].
  intros Hne. apply transfer_moves_amount; [exact Ht | congruence].
Qed.

(** ** Authentication, pause gate and disbursement of the receiver *)

Section ReceiverTheorems.
Import Manager ComposeMsg.

(** C1: while the receiver is not paused, [lzCompose] checks the caller
    and then the originating OApp before it looks at the message: a caller
    other than the endpoint gives [UnauthorizedSender] whatever the rest;
    with the right caller, an OApp other than the trusted OFT gives
    [UntrustedOApp] (the contract's name for the spec's UntrustedOrigin);
    in both cases the state and the token balances are the ones before the
    call, so nothing is transferred and [totalProcessed] is unchanged. *)
Theorem lzCompose_checks_source_first {L : Type} `{Token : IERC20 L}
    (s : State) (ledger : L) (sender oApp : address) (guid : Z)
    (m : bytes) (ex : address) (extra : bytes) :
  paused s = false ->
  (sender <> endpoint s ->
   lzCompose s ledger sender oApp guid m ex extra = Revert UnauthorizedSender)
  /\ (sender = endpoint s -> oApp <> trustedOFT s ->
      lzCompose s ledger sender oApp guid m ex extra = Revert UntrustedOApp)
  /\ (sender <> endpoint s \/ oApp <> trustedOFT s ->
      state_after s ledger (lzCompose s ledger sender oApp guid m ex extra)
      = (s, ledger)).
Proof.
  intros Hp. split; [|split].
  - intros Hs. now apply lzCompose_wrong_sender.
  - intros Hs Ho. now apply lzCompose_wrong_origin.
  - intros H.
    destruct (Z.eq_dec sender (endpoint s)) as [Hs|Hs].
    + destruct H as [H|H]; [contradiction|].
      now rewrite lzCompose_wrong_origin.
    + now rewrite lzCompose_wrong_sender.
Qed.

Lemma lzCompose_checks_source_first_witness :
  Manager.paused Scenario.active = false
  /\ Scenario.T2 <> endpoint Scenario.active
  /\ Scenario.O2 <> trustedOFT Scenario.active
  /\ lzCompose Scenario.active Scenario.funds Scenario.T2 Scenario.O1 0
       Scenario.send_envelope 0 [] = Revert UnauthorizedSender
  /\ lzCompose Scenario.active Scenario.funds Scenario.T1 Scenario.O2 0
       Scenario.send_envelope 0 [] = Revert UntrustedOApp
  /\ state_after Scenario.active Scenario.funds
       (lzCompose Scenario.active Scenario.funds Scenario.T2 Scenario.O1 0
          Scenario.send_envelope 0 [])
     = (Scenario.active, Scenario.funds).
Proof.
  assert (Hp : Manager.paused Scenario.active = false) by reflexivity.
  assert (Hs : Scenario.T2 <> endpoint Scenario.active) by (vm_compute; discriminate).
  assert (Ho : Scenario.O2 <> trustedOFT Scenario.active) by (vm_compute; discriminate).
  split; [exact Hp|]. split; [exact Hs|]. split; [exact Ho|].
  split; [|split].
  - exact (proj1 (lzCompose_checks_source_first Scenario.active Scenario.funds
      Scenario.T2 Scenario.O1 0 Scenario.send_envelope 0 [] Hp) Hs).
  - exact (proj1 (proj2 (lzCompose_checks_source_first Scenario.active Scenario.funds
      Scenario.T1 Scenario.O2 0 Scenario.send_envelope 0 [] Hp)) eq_refl Ho).
  - exact (proj2 (proj2 (lzCompose_checks_source_first Scenario.active Scenario.funds
      Scenario.T2 Scenario.O1 0 Scenario.send_envelope 0 [] Hp)) (or_introl Hs)).
Defined.

(** C2: while [paused] is set every [lzCompose] reverts with
    [ContractPaused] and leaves the state and the balances as they were.
    Once the owner has called [setPaused(false)], the same envelope goes
    through, provided it is one the receiver accepts (it comes from the
    endpoint on behalf of the trusted OFT, it unpacks, its payload decodes,
    a BURNT payload carries its 32-byte amount, the token transfer succeeds
    and the counter does not overflow); [totalProcessed] then grows by
    exactly the delivered amount. *)
Theorem lzCompose_pause_gate {L : Type} `{Token : IERC20 L}
    (s : State) (ledger : L) (sender oApp : address) (guid : Z)
    (m : bytes) (ex : address) (extra : bytes) :
  paused s = true ->
  (lzCompose s ledger sender oApp guid m ex extra = Revert ContractPaused
   /\ state_after s ledger (lzCompose s ledger sender oApp guid m ex extra)
      = (s, ledger))
  /\ forall (amount : Z) (payload : bytes) (d : ComposeData) (ledger' : L),
      sender = endpoint s -> oApp = trustedOFT s ->
      OFTComposeMsgCodec.amountLD m = Ok amount ->
      OFTComposeMsgCodec.composeMsg m = Ok payload ->
      ComposeMsg.decode payload = Ok d ->
      (messageType d = BURNT -> (32 <= length (additionalData d))%nat) ->
      safeTransfer (trustedOFT s) (self s) (recipient d) amount ledger = Ok ledger' ->
      totalProcessed s + amount <= UINT256_MAX ->
      exists s1 ev1 s2 ev2,
        setPaused s (owner s) false = Ok (s1, ev1)
        /\ lzCompose s1 ledger sender oApp guid m ex extra = Ok (s2, ledger', ev2)
        /\ totalProcessed s2 = totalProcessed s + amount.
Proof.
  intros Hp. split.
  - rewrite lzCompose_paused by assumption. now split.
  - intros amount payload d ledger' Hs Ho Ha Hm Hd Hb Ht Hsum.
    set (s1 := mkState (self s) (owner s) (endpoint s) (trustedOFT s)
                 (totalProcessed s) false).
    exists s1, [PausedStateChanged false].
    destruct (composeMsg_Ok_length _ _ Hm) as [Hlen ->].
    destruct (envelope_fields m Hlen) as (_ & _ & Ha' & _).
    rewrite Ha' in Ha. injection Ha as <-.
    eexists _, _. split; [|split].
    + unfold setPaused, onlyOwner. rewrite Z.eqb_refl. reflexivity.
    + rewrite lzCompose_authenticated by (assumption || reflexivity).
      apply (process_Ok s1 ledger _ (drop 76 m) d ledger' Hd Hb Ht Hsum).
    + reflexivity.
Qed.

Lemma lzCompose_pause_gate_witness :
  paused Scenario.halted = true
  /\ lzCompose Scenario.halted Scenario.funds Scenario.T1 Scenario.O1 0
       Scenario.send_envelope 0 [] = Revert ContractPaused
  /\ exists s1 ev1 s2 ev2,
       setPaused Scenario.halted (owner Scenario.halted) false = Ok (s1, ev1)
       /\ lzCompose s1 Scenario.funds Scenario.T1 Scenario.O1 0
            Scenario.send_envelope 0 []
          = Ok (s2, <[Scenario.R := 100]> (<[Scenario.manager := 900]> Scenario.funds), ev2)
       /\ totalProcessed s2 = totalProcessed Scenario.halted + 100.
Proof.
  assert (Hp : paused Scenario.halted = true) by reflexivity.
  split; [exact Hp|]. split.
  - exact (proj1 (proj1 (lzCompose_pause_gate Scenario.halted Scenario.funds
      Scenario.T1 Scenario.O1 0 Scenario.send_envelope 0 [] Hp))).
  - apply (proj2 (lzCompose_pause_gate Scenario.halted Scenario.funds
      Scenario.T1 Scenario.O1 0 Scenario.send_envelope 0 [] Hp)
      100 (ComposeMsg.encodeCrossChainSend Scenario.R)
      (mkComposeData Scenario.R CROSS_CHAIN_SEND [])).
    + reflexivity.
    + reflexivity.
    + vm_compute. reflexivity.
    + vm_compute. reflexivity.
    + vm_compute. reflexivity.
    + intros H. discriminate H.
    + vm_compute. reflexivity.
    + vm_compute. discriminate.
Defined.

(** The decoder turns down every tag that is not a member of the enum. *)
Lemma decode_foreign_tag (payload : bytes) :
  Abi.mload payload 32 <> 0 -> Abi.mload payload 32 <> 1 ->
  ComposeMsg.decode payload = Revert EmptyRevert.
Proof.
  intros H0 H1. unfold ComposeMsg.decode, Abi.decode_address_enum_bytes.
  pose proof (mload_range payload 32) as Hr.
  destruct (Z.ltb_spec (Z.of_nat (length payload)) 96); [reflexivity|].
  destruct (Z.ltb_spec UINT160_MAX (Abi.mload payload 0)); [reflexivity|].
  destruct (Z.ltb_spec (Abi.mload payload 32) members);
    [unfold members in *; lia|reflexivity].
Qed.

(** C3 (as the code has it): a message that passes the pause and source
    checks and whose payload carries a tag other than 0 and 1 is turned
    down by the payload decoder, with the decoder's revert without data
    (the spec's MalformedPayload) and not with [UnsupportedMessageType]; the
    state and the balances stay as they were, so no funds move. *)
Theorem lzCompose_foreign_tag_rejected {L : Type} `{Token : IERC20 L}
    (s : State) (ledger : L) (sender oApp : address) (guid : Z)
    (m payload : bytes) (ex : address) (extra : bytes) :
  paused s = false -> sender = endpoint s -> oApp = trustedOFT s ->
  OFTComposeMsgCodec.composeMsg m = Ok payload ->
  Abi.mload payload 32 <> 0 -> Abi.mload payload 32 <> 1 ->
  lzCompose s ledger sender oApp guid m ex extra = Revert EmptyRevert
  /\ state_after s ledger (lzCompose s ledger sender oApp guid m ex extra)
     = (s, ledger).
Proof.
  intros Hp Hs Ho Hm H0 H1.
  destruct (composeMsg_Ok_length _ _ Hm) as [Hlen ->].
  assert (H : lzCompose s ledger sender oApp guid m ex extra = Revert EmptyRevert).
  { rewrite lzCompose_authenticated by assumption.
    unfold process. now rewrite decode_foreign_tag. }
  rewrite H. now split.
Qed.

Lemma lzCompose_foreign_tag_rejected_witness :
  (paused Scenario.active = false
   /\ OFTComposeMsgCodec.composeMsg Scenario.tag2_envelope = Ok Scenario.tag2_payload
   /\ Abi.mload Scenario.tag2_payload 32 = 2)
  /\ lzCompose Scenario.active Scenario.funds Scenario.T1 Scenario.O1 0
       Scenario.tag2_envelope 0 [] = Revert EmptyRevert
  /\ state_after Scenario.active Scenario.funds
       (lzCompose Scenario.active Scenario.funds Scenario.T1 Scenario.O1 0
          Scenario.tag2_envelope 0 [])
     = (Scenario.active, Scenario.funds).
Proof.
  split.
  - repeat split; vm_compute; reflexivity.
  - apply (lzCompose_foreign_tag_rejected Scenario.active Scenario.funds
      Scenario.T1 Scenario.O1 0 Scenario.tag2_envelope Scenario.tag2_payload 0 []).
    + reflexivity.
    + reflexivity.
    + reflexivity.
    + vm_compute. reflexivity.
    + vm_compute. discriminate.
    + vm_compute. discriminate.
Defined.

(** C3 as stated fails: with the receiver active, the endpoint as caller
    and the trusted OFT as origin, a payload with tag 2 does not make
    [lzCompose] fail with [UnsupportedMessageType]. *)
Lemma lzCompose_tag2_not_UnsupportedMessageType :
  paused Scenario.active = false
  /\ Scenario.T1 = endpoint Scenario.active
  /\ Scenario.O1 = trustedOFT Scenario.active
  /\ OFTComposeMsgCodec.composeMsg Scenario.tag2_envelope = Ok Scenario.tag2_payload
  /\ Abi.mload Scenario.tag2_payload 32 = 2
  /\ lzCompose Scenario.active Scenario.funds Scenario.T1 Scenario.O1 0
       Scenario.tag2_envelope 0 [] <> Revert UnsupportedMessageType.
Proof.
  repeat split; try (vm_compute; reflexivity).
  vm_compute. discriminate.
Qed.

(** C4: whenever [lzCompose] returns, the one token transfer it made moved
    exactly the amount delivered with the envelope to the recipient named
    in the payload, [totalProcessed] grew by exactly that amount, and the
    event reports it; this holds for both message types, and for BURNT the
    amount embedded in the payload is decoded but is not the amount
    transferred. *)
Theorem lzCompose_disburses_delivered_amount {L : Type} `{Token : IERC20 L}
    (s : State) (ledger : L) (sender oApp : address) (guid : Z)
    (m : bytes) (ex : address) (extra : bytes)
    (s' : State) (ledger' : L) (ev : list event) :
  lzCompose s ledger sender oApp guid m ex extra = Ok (s', ledger', ev) ->
  exists (amount : Z) (payload : bytes) (d : ComposeData),
    OFTComposeMsgCodec.amountLD m = Ok amount
    /\ OFTComposeMsgCodec.composeMsg m = Ok payload
    /\ ComposeMsg.decode payload = Ok d
    /\ (messageType d = BURNT ->
        exists burnt, Abi.decode_uint256 (additionalData d) = Ok burnt)
    /\ safeTransfer (trustedOFT s) (self s) (recipient d) amount ledger = Ok ledger'
    /\ totalProcessed s' = totalProcessed s + amount
    /\ ev = [TokensProcessed (recipient d) amount (messageType d)].
Proof.
  intros H.
  destruct (lzCompose_Ok_inv _ _ _ _ _ _ _ _ _ _ _ H) as (_ & _ & _ & Hlen & Hproc).
  destruct (process_Ok_inv _ _ _ _ _ _ _ Hproc)
    as (d & Hd & Hb & Ht & _ & Hs' & Hev).
  destruct (envelope_fields m Hlen) as (_ & _ & Ha & _).
  exists (be_value (take 32 (drop 12 m))), (drop 76 m), d.
  repeat split; try assumption.
  - now apply composeMsg_Ok.
  - now rewrite Hs'.
Qed.

Lemma lzCompose_disburses_delivered_amount_witness :
  lzCompose Scenario.active Scenario.funds Scenario.T1 Scenario.O1 0
    Scenario.burnt_envelope 0 []
  = Ok (mkState Scenario.manager Scenario.admin Scenario.T1 Scenario.O1 100 false,
        <[Scenario.R := 100]> (<[Scenario.manager := 900]> Scenario.funds),
        [TokensProcessed Scenario.R 100 BURNT])
  /\ exists (amount : Z) (payload : bytes) (d : ComposeData),
    OFTComposeMsgCodec.amountLD Scenario.burnt_envelope = Ok amount
    /\ OFTComposeMsgCodec.composeMsg Scenario.burnt_envelope = Ok payload
    /\ ComposeMsg.decode payload = Ok d
    /\ (messageType d = BURNT ->
        exists burnt, Abi.decode_uint256 (additionalData d) = Ok burnt)
    /\ safeTransfer (trustedOFT Scenario.active) (self Scenario.active)
         (recipient d) amount Scenario.funds
       = Ok (<[Scenario.R := 100]> (<[Scenario.manager := 900]> Scenario.funds))
    /\ 100 = totalProcessed Scenario.active + amount
    /\ [TokensProcessed Scenario.R 100 BURNT]
       = [TokensProcessed (recipient d) amount (messageType d)].
Proof.
  assert (H : lzCompose Scenario.active Scenario.funds Scenario.T1 Scenario.O1 0
    Scenario.burnt_envelope 0 []
  = Ok (mkState Scenario.manager Scenario.admin Scenario.T1 Scenario.O1 100 false,
        <[Scenario.R := 100]> (<[Scenario.manager := 900]> Scenario.funds),
        [TokensProcessed Scenario.R 100 BURNT])) by (vm_compute; reflexivity).
  split; [exact H|].
  exact (lzCompose_disburses_delivered_amount _ _ _ _ _ _ _ _ _ _ _ H).
Defined.

End ReceiverTheorems.

(** ** The initiator *)

Section InitiatorFacts.
Import AlphaOFT ComposeMsg.
Context {C : Type} `{Core : OFTCore C}.

Lemma quoteSendComposed_request (st : State C) _to _amount _dstEid t pay opts :
  quoteSendComposed st _to _amount _dstEid t pay opts
  = (check validDestination st _dstEid in
     quoteSend st (send_request st _to _amount _dstEid t opts) pay).
Proof.
  unfold quoteSendComposed.
  destruct (validDestination st _dstEid); [|reflexivity].
  now destruct t.
Qed.

Lemma _sendComposed_request (st : State C) sender _to _amount _dstEid t pay opts :
  _sendComposed st sender _to _amount _dstEid t pay opts
  = (check validDestination st _dstEid in
     let sp := send_request st _to _amount _dstEid t opts in
     let* msgFee := quoteSend st sp pay in
     let* st' := send st (if pay then 0 else nativeFee msgFee) sp msgFee sender in
     Ok (st', [CrossChainSendInitiated _to _amount _dstEid])).
Proof.
  unfold _sendComposed.
  destruct (validDestination st _dstEid); [|reflexivity].
  now destruct t.
Qed.

Lemma sendComposed_not_owner (st : State C) sender _to _amount _dstEid t pay opts :
  sender <> owner st ->
  sendComposed st sender _to _amount _dstEid t pay opts
  = Revert (OwnableUnauthorizedAccount sender).
Proof.
  intros H. unfold sendComposed, onlyOwner.
  destruct (Z.eqb_spec (owner st) sender); [congruence|reflexivity].
Qed.

Lemma sendComposed_owner (st : State C) _to _amount _dstEid t pay opts :
  sendComposed st (owner st) _to _amount _dstEid t pay opts
  = _sendComposed st (owner st) _to _amount _dstEid t pay opts.
Proof. unfold sendComposed, onlyOwner. now rewrite Z.eqb_refl. Qed.

Lemma getBurntAmount_encodeBurnt (r : address) (amount : Z) :
  is_address r -> is_uint256 amount ->
  ComposeMsg.getBurntAmount (ComposeMsg.encodeBurnt r amount) = Ok amount.
Proof.
  intros Hr Ha. unfold ComposeMsg.encodeBurnt. rewrite getBurntAmount_encode.
  - now apply decode_uint256_encode.
  - assumption.
  - rewrite length_encode_uint256. unfold_ranges. lia.
Qed.

End InitiatorFacts.

Section InitiatorTheorems.
Import AlphaOFT ComposeMsg.

(** C9: [sendComposed] fails with Ownable's unauthorized-account error
    (the spec's Unauthorized) for any caller other than the owner; for the
    owner it fails with [InvalidEndpointId] when the destination is 0, else
    with [NoPeerConfigured] when no peer is set for it, else with
    [NoCrossChainManager] when no manager is registered for it.  The OFT
    core is arbitrary and plays no part: nothing is encoded, quoted or
    debited before these failures. *)
Theorem sendComposed_preconditions {C : Type} `{Core : OFTCore C}
    (st : State C) (sender _to : address) (_amount _dstEid : Z)
    (t : MessageType) (pay : bool) (opts : bytes) :
  (sender <> owner st ->
   sendComposed st sender _to _amount _dstEid t pay opts
   = Revert (OwnableUnauthorizedAccount sender))
  /\ (sender = owner st -> _dstEid = 0 ->
      sendComposed st sender _to _amount _dstEid t pay opts
      = Revert InvalidEndpointId)
  /\ (sender = owner st -> _dstEid <> 0 ->
      mapping_get (peers st) _dstEid = 0 ->
      sendComposed st sender _to _amount _dstEid t pay opts
      = Revert NoPeerConfigured)
  /\ (sender = owner st -> _dstEid <> 0 ->
      mapping_get (peers st) _dstEid <> 0 ->
      mapping_get (crossChainManagers st) _dstEid = 0 ->
      sendComposed st sender _to _amount _dstEid t pay opts
      = Revert NoCrossChainManager).
Proof.
  split; [|split; [|split]].
  - apply sendComposed_not_owner.
  - intros -> ->. rewrite sendComposed_owner.
    unfold _sendComposed, validDestination. reflexivity.
  - intros -> Hd Hp. rewrite sendComposed_owner.
    unfold _sendComposed, validDestination.
    destruct (Z.eqb_spec _dstEid 0); [contradiction|].
    rewrite Hp. reflexivity.
  - intros -> Hd Hp Hm. rewrite sendComposed_owner.
    unfold _sendComposed, validDestination.
    destruct (Z.eqb_spec _dstEid 0); [contradiction|].
    destruct (Z.eqb_spec (mapping_get (peers st) _dstEid) 0); [contradiction|].
    rewrite Hm. reflexivity.
Qed.

Lemma sendComposed_preconditions_witness :
  sendComposed Scenario.wired 2 Scenario.R 1000 Scenario.D CROSS_CHAIN_SEND false []
  = Revert (OwnableUnauthorizedAccount 2)
  /\ sendComposed Scenario.wired Scenario.admin Scenario.R 1000 0 CROSS_CHAIN_SEND false []
     = Revert InvalidEndpointId
  /\ sendComposed Scenario.no_peer Scenario.admin Scenario.R 1000 Scenario.D
       CROSS_CHAIN_SEND false []
     = Revert NoPeerConfigured
  /\ sendComposed Scenario.no_manager Scenario.admin Scenario.R 1000 Scenario.D
       CROSS_CHAIN_SEND false []
     = Revert NoCrossChainManager.
Proof.
  split; [|split; [|split]].
  - apply (proj1 (sendComposed_preconditions Scenario.wired 2 Scenario.R 1000
      Scenario.D CROSS_CHAIN_SEND false [])).
    vm_compute. discriminate.
  - apply (proj1 (proj2 (sendComposed_preconditions Scenario.wired Scenario.admin
      Scenario.R 1000 0 CROSS_CHAIN_SEND false []))); reflexivity.
  - apply (proj1 (proj2 (proj2 (sendComposed_preconditions Scenario.no_peer
      Scenario.admin Scenario.R 1000 Scenario.D CROSS_CHAIN_SEND false []))));
      [reflexivity | vm_compute; discriminate | vm_compute; reflexivity].
  - apply (proj2 (proj2 (proj2 (sendComposed_preconditions Scenario.no_manager
      Scenario.admin Scenario.R 1000 Scenario.D CROSS_CHAIN_SEND false []))));
      [reflexivity | vm_compute; discriminate | vm_compute; discriminate
      | vm_compute; reflexivity].
Defined.

(** C10: for the same inputs [quoteSendComposed] and [_sendComposed] pass
    one and the same request to the OFT core: destination, manager as
    target, [amountLD], [minAmountLD], options and compose payload are those
    of [send_request]; the send quotes that request first and submits it
    with the fee just quoted, so a fee returned by [quoteSendComposed] is
    the fee of the request the send submits. *)
Theorem quote_and_send_build_same_request {C : Type} `{Core : OFTCore C}
    (st : State C) (sender _to : address) (_amount _dstEid : Z)
    (t : MessageType) (pay : bool) (opts : bytes) :
  let sp := send_request st _to _amount _dstEid t opts in
  (dstEid sp = _dstEid
   /\ to sp = _addressToBytes32 (mapping_get (crossChainManagers st) _dstEid)
   /\ amountLD sp = _amount /\ minAmountLD sp = _amount
   /\ extraOptions sp = opts
   /\ composeMsg sp = match t with
                      | CROSS_CHAIN_SEND => ComposeMsg.encodeCrossChainSend _to
                      | BURNT => ComposeMsg.encodeBurnt _to _amount
                      end)
  /\ quoteSendComposed st _to _amount _dstEid t pay opts
     = (check validDestination st _dstEid in quoteSend st sp pay)
  /\ _sendComposed st sender _to _amount _dstEid t pay opts
     = (check validDestination st _dstEid in
        let* msgFee := quoteSend st sp pay in
        let* st' := send st (if pay then 0 else nativeFee msgFee) sp msgFee sender in
        Ok (st', [CrossChainSendInitiated _to _amount _dstEid]))
  /\ forall quoted : MessagingFee,
       quoteSendComposed st _to _amount _dstEid t pay opts = Ok quoted ->
       _sendComposed st sender _to _amount _dstEid t pay opts
       = (let* st' := send st (if pay then 0 else nativeFee quoted) sp quoted sender in
          Ok (st', [CrossChainSendInitiated _to _amount _dstEid])).
Proof.
  intros sp. split; [|split; [|split]].
  - repeat split; reflexivity.
  - apply quoteSendComposed_request.
  - apply _sendComposed_request.
  - intros quoted. rewrite quoteSendComposed_request, _sendComposed_request.
    destruct (validDestination st _dstEid); [|discriminate].
    cbn [bind]. fold sp. intros ->. reflexivity.
Qed.

Lemma quote_and_send_build_same_request_witness :
  quoteSendComposed Scenario.wired Scenario.R 1000 Scenario.D BURNT false []
  = Ok Recorder.fee
  /\ _sendComposed Scenario.wired Scenario.admin Scenario.R 1000 Scenario.D
       BURNT false []
     = (let* st' := send Scenario.wired (nativeFee Recorder.fee)
                      (send_request Scenario.wired Scenario.R 1000 Scenario.D BURNT [])
                      Recorder.fee Scenario.admin in
        Ok (st', [CrossChainSendInitiated Scenario.R 1000 Scenario.D])).
Proof.
  assert (Hq : quoteSendComposed Scenario.wired Scenario.R 1000 Scenario.D
                 BURNT false [] = Ok Recorder.fee) by (vm_compute; reflexivity).
  split; [exact Hq|].
  exact (proj2 (proj2 (proj2 (quote_and_send_build_same_request Scenario.wired
           Scenario.admin Scenario.R 1000 Scenario.D BURNT false [])))
           Recorder.fee Hq).
Defined.

(** C5 (as the code has it): in a BURNT send the one [amount] argument is
    used twice: it is the [amountLD] of the request handed to the OFT core
    and it is the amount embedded in the compose payload, so the embedded
    burnt amount always equals the amount of the request. *)
Theorem sendComposed_burnt_amount_is_amount {C : Type} `{Core : OFTCore C}
    (st : State C) (sender _to : address) (_amount _dstEid : Z)
    (pay : bool) (opts : bytes) :
  is_address _to -> is_uint256 _amount ->
  exists sp : SendParam,
    _sendComposed st sender _to _amount _dstEid BURNT pay opts
    = (check validDestination st _dstEid in
       let* msgFee := quoteSend st sp pay in
       let* st' := send st (if pay then 0 else nativeFee msgFee) sp msgFee sender in
       Ok (st', [CrossChainSendInitiated _to _amount _dstEid]))
    /\ amountLD sp = _amount
    /\ ComposeMsg.getBurntAmount (composeMsg sp) = Ok (amountLD sp).
Proof.
  intros Ht Ha. exists (send_request st _to _amount _dstEid BURNT opts).
  split; [apply _sendComposed_request|]. split; [reflexivity|].
  cbn [send_request composeMsg amountLD compose_payload].
  now apply getBurntAmount_encodeBurnt.
Qed.

Lemma sendComposed_burnt_amount_is_amount_witness :
  (is_address Scenario.R /\ is_uint256 1000)
  /\ exists sp : SendParam,
    _sendComposed Scenario.wired Scenario.admin Scenario.R 1000 Scenario.D BURNT false []
    = (check validDestination Scenario.wired Scenario.D in
       let* msgFee := quoteSend Scenario.wired sp false in
       let* st' := send Scenario.wired (nativeFee msgFee) sp msgFee Scenario.admin in
       Ok (st', [CrossChainSendInitiated Scenario.R 1000 Scenario.D]))
    /\ amountLD sp = 1000
    /\ ComposeMsg.getBurntAmount (composeMsg sp) = Ok (amountLD sp).
Proof.
  assert (Hr : is_address Scenario.R) by (unfold is_address, Scenario.R; lia).
  assert (Ha : is_uint256 1000) by (unfold is_uint256; lia).
  split; [split; assumption|].
  exact (sendComposed_burnt_amount_is_amount Scenario.wired Scenario.admin
           Scenario.R 1000 Scenario.D false [] Hr Ha).
Defined.

(** C5 as stated fails: no owner call of [sendComposed] with type BURNT
    submits a request whose embedded burnt amount differs from the amount
    of the request.  The recording core shows the request submitted. *)
Lemma no_send_with_a_separate_burnt_amount :
  ~ exists (st st' : State (list Recorder.sent)) (sender _to : address)
      (_amount _dstEid : Z) (pay : bool) (opts : bytes) (ev : list event)
      (value : Z) (sp : SendParam) (fee : MessagingFee) (refund : address),
      is_address _to /\ is_uint256 _amount
      /\ sendComposed st sender _to _amount _dstEid BURNT pay opts = Ok (st', ev)
      /\ core st' = (value, sp, fee, refund) :: core st
      /\ ComposeMsg.getBurntAmount (composeMsg sp) <> Ok (amountLD sp).
Proof.
  intros (st & st' & sender & _to & _amount & _dstEid & pay & opts & ev
          & value & sp & fee & refund & Ht & Ha & Hrun & Hcore & Hne).
  destruct (Z.eq_dec sender (owner st)) as [->|Hs];
    [|now rewrite sendComposed_not_owner in Hrun].
  rewrite sendComposed_owner, _sendComposed_request in Hrun.
  destruct (validDestination st _dstEid); [|discriminate].
  cbn in Hrun. injection Hrun as <- _. cbn in Hcore.
  injection Hcore as _ <- _ _. apply Hne.
  cbn [send_request composeMsg amountLD compose_payload].
  now apply getBurntAmount_encodeBurnt.
Qed.

End InitiatorTheorems.

(** ** Truncated, extended and mutated encodings *)

Lemma be_value_zeros (k : nat) : be_value (replicate k x00) = 0.
Proof.
  induction k as [|k IH]; [reflexivity|].
  change (replicate (S k) x00) with ([x00] ++ replicate k x00).
  rewrite be_value_app, IH. reflexivity.
Qed.

(** A value that fits in [w] bytes is zero-padded on the left. *)
Lemma be_bytes_padded (k w : nat) (n : Z) :
  0 <= n < 256 ^ Z.of_nat w ->
  be_bytes (k + w) n = replicate k x00 ++ be_bytes w n.
Proof.
  intros Hn. apply be_value_inj.
  - now rewrite length_app, !length_be_bytes, length_replicate.
  - rewrite be_value_app, be_value_zeros, !be_value_be_bytes.
    assert (Hp : 256 ^ Z.of_nat w <= 256 ^ Z.of_nat (k + w))
      by (apply Z.pow_le_mono_r; lia).
    rewrite !Z.mod_small by lia. lia.
Qed.

Lemma word_address (a : Z) :
  is_address a -> Abi.word a = replicate 12 x00 ++ be_bytes 20 a.
Proof.
  intros Ha. unfold Abi.word. apply (be_bytes_padded 12 20).
  change (256 ^ Z.of_nat 20) with (2 ^ 160). exact Ha.
Qed.

Lemma word_tag (t : ComposeMsg.MessageType) :
  Abi.word (ComposeMsg.tag_of t) = replicate 31 x00 ++ be_bytes 1 (ComposeMsg.tag_of t).
Proof.
  unfold Abi.word. apply (be_bytes_padded 31 1). destruct t; simpl; lia.
Qed.

(** Writing a non-zero byte into the padding makes the value too large for
    what the padding protects. *)
Lemma be_value_dirty_padding (k : nat) (low : bytes) (i : nat) (b : byte) :
  (i < k)%nat -> b <> x00 ->
  256 ^ Z.of_nat (length low) <= be_value (<[i := b]> (replicate k x00 ++ low)).
Proof.
  intros Hi Hb.
  rewrite insert_app_l by (rewrite length_replicate; lia).
  rewrite be_value_app.
  pose proof (be_value_range (<[i := b]> (replicate k x00))) as Hr.
  pose proof (be_value_range low) as Hl.
  assert (Hnz : be_value (<[i := b]> (replicate k x00)) <> 0).
  { intros Hz. apply Hb.
    assert (Heq : <[i := b]> (replicate k x00) = replicate k x00).
    { apply be_value_inj; [apply length_insert | now rewrite be_value_zeros]. }
    assert (Hlk : <[i := b]> (replicate k x00) !! i = Some b)
      by (apply list_lookup_insert_eq; rewrite length_replicate; lia).
    rewrite Heq in Hlk.
    apply lookup_replicate_1 in Hlk as [-> _]. reflexivity. }
  assert (Hp : 0 < 256 ^ Z.of_nat (length low)) by (apply Z.pow_pos_nonneg; lia).
  nia.
Qed.

Lemma length_encode (r : address) (t : ComposeMsg.MessageType) (aux : bytes) :
  length (ComposeMsg.encode r t aux)
  = (128 + (length aux + length (Abi.padding (length aux))))%nat.
Proof.
  unfold ComposeMsg.encode, Abi.encode_address_enum_bytes.
  rewrite length_slots, length_app. reflexivity.
Qed.

Lemma length_encodeCrossChainSend (r : address) :
  length (ComposeMsg.encodeCrossChainSend r) = 128%nat.
Proof. unfold ComposeMsg.encodeCrossChainSend. now rewrite length_encode. Qed.

Lemma length_encodeBurnt (r : address) (amount : Z) :
  length (ComposeMsg.encodeBurnt r amount) = 160%nat.
Proof.
  unfold ComposeMsg.encodeBurnt.
  now rewrite length_encode, length_encode_uint256.
Qed.

(** An encoding cut before the last byte of its data does not decode. *)
Lemma decode_truncated (r : address) (t : ComposeMsg.MessageType)
    (aux : bytes) (n : nat) :
  is_address r -> Z.of_nat (length aux) <= UINT64_MAX ->
  (n < 128 + length aux)%nat ->
  ComposeMsg.decode (take n (ComposeMsg.encode r t aux)) = Revert EmptyRevert.
Proof.
  intros Hr Haux Hn.
  pose proof (length_encode r t aux) as Hlen.
  pose proof (tag_of_range t) as Ht.
  unfold ComposeMsg.decode, Abi.decode_address_enum_bytes.
  rewrite length_take_le by lia.
  unfold ComposeMsg.encode, Abi.encode_address_enum_bytes in *.
  set (tail := aux ++ Abi.padding (length aux)) in *.
  set (l := Z.of_nat (length aux)) in *.
  assert (Hr' : is_uint256 r) by (unfold_ranges; lia).
  assert (Ht' : is_uint256 (ComposeMsg.tag_of t)) by (unfold_ranges; lia).
  assert (Ho : is_uint256 96) by (unfold_ranges; lia).
  assert (Hl : is_uint256 l) by (unfold_ranges; lia).
  destruct (Z.ltb_spec (Z.of_nat n) 96) as [|Hn96]; [reflexivity|].
  rewrite !mload_take by lia.
  rewrite slot0, slot1, slot2 by assumption.
  ltb_false. ltb_true. cbn [negb]. ltb_false.
  destruct (Z.ltb_spec (96 + 31) (Z.of_nat n)) as [Hn128|]; [|reflexivity].
  cbn [negb]. change (Z.to_nat 96) with 96%nat.
  rewrite mload_take by lia. rewrite slot3 by assumption.
  ltb_false. rewrite (proj2 (Z.ltb_lt _ _)) by lia. reflexivity.
Qed.

(** A non-zero byte written over the padding of the recipient slot or of
    the tag slot makes the decoder turn the payload down. *)
Lemma decode_dirty_padding (r : address) (t : ComposeMsg.MessageType)
    (aux : bytes) (i : nat) (b : byte) :
  is_address r -> ((i < 12) \/ (32 <= i < 63))%nat -> b <> x00 ->
  ComposeMsg.decode (<[i := b]> (ComposeMsg.encode r t aux)) = Revert EmptyRevert.
Proof.
  intros Hr Hi Hb.
  pose proof (length_encode r t aux) as Hlen.
  unfold ComposeMsg.decode, Abi.decode_address_enum_bytes.
  rewrite length_insert.
  destruct (Z.ltb_spec (Z.of_nat (length (ComposeMsg.encode r t aux))) 96)
    as [|_]; [reflexivity|].
  unfold ComposeMsg.encode, Abi.encode_address_enum_bytes in *.
  set (rest := Abi.word 96 ++ Abi.word (Z.of_nat (length aux)) ++ aux
               ++ Abi.padding (length aux)) in *.
  destruct Hi as [Hi|Hi].
  - (* the recipient slot *)
    assert (Hv : UINT160_MAX < Abi.mload
              (<[i := b]> (Abi.word r ++ Abi.word (ComposeMsg.tag_of t) ++ rest)) 0).
    { unfold Abi.mload. rewrite drop_0.
      rewrite insert_app_l by (rewrite length_word; lia).
      rewrite take_app_length' by (now rewrite length_insert, length_word).
      rewrite word_address by assumption.
      pose proof (be_value_dirty_padding 12 (be_bytes 20 r) i b Hi Hb) as Hd.
      rewrite length_be_bytes in Hd.
      change (256 ^ Z.of_nat 20) with (2 ^ 160) in Hd.
      unfold UINT160_MAX. lia. }
    now rewrite (proj2 (Z.ltb_lt _ _) Hv).
  - (* the tag slot *)
    destruct (Z.ltb_spec UINT160_MAX (Abi.mload
      (<[i := b]> (Abi.word r ++ Abi.word (ComposeMsg.tag_of t) ++ rest)) 0))
      as [|_]; [reflexivity|].
    assert (Hv : ComposeMsg.members <= Abi.mload
              (<[i := b]> (Abi.word r ++ Abi.word (ComposeMsg.tag_of t) ++ rest)) 32).
    { unfold Abi.mload.
      replace i with (length (Abi.word r) + (i - 32))%nat
        by (rewrite length_word; lia).
      rewrite insert_app_r.
      rewrite <- (length_word r) at 2. rewrite drop_app_length.
      rewrite insert_app_l by (rewrite length_word; lia).
      rewrite take_app_length' by (now rewrite length_insert, length_word).
      rewrite word_tag.
      assert (Hi' : (i - 32 < 31)%nat) by lia.
      pose proof (be_value_dirty_padding 31 (be_bytes 1 (ComposeMsg.tag_of t))
                    (i - 32) b Hi' Hb) as Hd.
      rewrite length_be_bytes in Hd.
      change (256 ^ Z.of_nat 1) with 256 in Hd.
      unfold ComposeMsg.members. lia. }
    now rewrite (proj2 (Z.ltb_ge _ _) Hv).
Qed.

(** Overwriting one of the twenty recipient bytes yields the encoding of
    another recipient. *)
Lemma mutate_recipient (r : address) (t : ComposeMsg.MessageType)
    (aux : bytes) (i : nat) (b : byte) :
  is_address r -> (12 <= i < 32)%nat ->
  ComposeMsg.encode r t aux !! i <> Some b ->
  exists r' : address,
    is_address r' /\ r' <> r
    /\ <[i := b]> (ComposeMsg.encode r t aux) = ComposeMsg.encode r' t aux.
Proof.
  intros Hr Hi Hne.
  unfold ComposeMsg.encode, Abi.encode_address_enum_bytes in *.
  set (rest := Abi.word (ComposeMsg.tag_of t) ++ Abi.word 96
               ++ Abi.word (Z.of_nat (length aux)) ++ aux
               ++ Abi.padding (length aux)) in *.
  rewrite lookup_app_l in Hne by (rewrite length_word; lia).
  rewrite insert_app_l by (rewrite length_word; lia).
  rewrite word_address in * by assumption.
  set (low := be_bytes 20 r) in *.
  assert (Hlow : length low = 20%nat) by apply length_be_bytes.
  assert (Hex : exists j : nat,
            (j < 20)%nat /\ i = (length (replicate 12 x00) + j)%nat)
    by (exists (i - 12)%nat; rewrite length_replicate; lia).
  destruct Hex as (j & Hj & ->).
  rewrite lookup_app_r in Hne by lia.
  replace (length (replicate 12 x00) + j - length (replicate 12 x00))%nat
    with j in Hne by lia.
  rewrite insert_app_r.
  set (low' := <[j := b]> low) in *.
  assert (Hlow' : length low' = 20%nat)
    by (unfold low'; now rewrite length_insert).
  assert (Hr' : is_address (be_value low')).
  { pose proof (be_value_range low') as H. rewrite Hlow' in H. exact H. }
  assert (Hback : be_bytes 20 (be_value low') = low').
  { rewrite <- Hlow' at 1. apply be_bytes_be_value. }
  exists (be_value low'). split; [exact Hr'|]. split.
  - intros Heq. apply Hne.
    assert (Hsame : low' = low) by (rewrite <- Hback, Heq; reflexivity).
    rewrite <- Hsame. unfold low'.
    apply list_lookup_insert_eq. lia.
  - rewrite (word_address (be_value low')) by assumption.
    now rewrite Hback.
Qed.

Section CodecTheorems.
Import ComposeMsg.

(** C8 (as the code has it): for an output [e] of [encodeCrossChainSend] or
    [encodeBurnt], every proper prefix of [e] fails to decode with the
    decoder's revert without data (the spec's MalformedPayload); bytes
    appended to [e] are ignored and [decode] returns the encoded triple; a
    non-zero byte written into the zero padding of the recipient slot
    (bytes 0-11) or of the tag slot (bytes 32-62) is rejected; a
    different byte written over one of the twenty recipient bytes (12-31)
    decodes to a triple with another recipient and the same type and data:
    the encoding carries no integrity check. *)
Theorem decode_truncated_extended_mutated
    (r : address) (amount : Z) (e : bytes) (d : ComposeData) :
  is_address r ->
  (e = encodeCrossChainSend r /\ d = mkComposeData r CROSS_CHAIN_SEND [])
  \/ (e = encodeBurnt r amount
      /\ d = mkComposeData r BURNT (Abi.encode_uint256 amount)) ->
  (forall n : nat, (n < length e)%nat ->
     decode (take n e) = Revert EmptyRevert)
  /\ (forall extra : bytes, decode (e ++ extra) = Ok d)
  /\ (forall (i : nat) (b : byte),
        (i < 12 \/ 32 <= i < 63)%nat -> b <> x00 ->
        decode (<[i := b]> e) = Revert EmptyRevert)
  /\ (forall (i : nat) (b : byte),
        (12 <= i < 32)%nat -> e !! i <> Some b ->
        exists r' : address,
          r' <> r
          /\ decode (<[i := b]> e)
             = Ok (mkComposeData r' (messageType d) (additionalData d))).
Proof.
  intros Hr He.
  assert (Hgen : exists t aux,
            e = encode r t aux /\ d = mkComposeData r t aux
            /\ length e = (128 + length aux)%nat
            /\ Z.of_nat (length aux) <= UINT64_MAX).
  { destruct He as [[-> ->]|[-> ->]].
    - exists CROSS_CHAIN_SEND, []. split; [reflexivity|]. split; [reflexivity|]. split.
      + apply length_encodeCrossChainSend.
      + simpl. unfold UINT64_MAX. lia.
    - exists BURNT, (Abi.encode_uint256 amount).
      split; [reflexivity|]. split; [reflexivity|]. split.
      + rewrite length_encodeBurnt, length_encode_uint256. reflexivity.
      + rewrite length_encode_uint256. unfold UINT64_MAX. lia. }
  destruct Hgen as (t & aux & -> & -> & Hlen & Haux).
  split; [|split; [|split]].
  - intros n Hn. apply decode_truncated; [assumption | assumption | lia].
  - intros extra. now apply decode_encode_ComposeMsg.
  - intros i b Hi Hb. now apply decode_dirty_padding.
  - intros i b Hi Hne.
    destruct (mutate_recipient r t aux i b Hr Hi Hne) as (r' & Hr' & Hdiff & ->).
    exists r'. split; [assumption|].
    rewrite <- (app_nil_r (encode r' t aux)).
    now apply decode_encode_ComposeMsg.
Qed.

Lemma decode_truncated_extended_mutated_witness :
  is_address Scenario.R
  /\ (forall n : nat, (n < length (encodeCrossChainSend Scenario.R))%nat ->
        decode (take n (encodeCrossChainSend Scenario.R)) = Revert EmptyRevert)
  /\ (forall extra : bytes,
        decode (encodeCrossChainSend Scenario.R ++ extra)
        = Ok (mkComposeData Scenario.R CROSS_CHAIN_SEND []))
  /\ (forall (i : nat) (b : byte),
        (i < 12 \/ 32 <= i < 63)%nat -> b <> x00 ->
        decode (<[i := b]> (encodeCrossChainSend Scenario.R)) = Revert EmptyRevert)
  /\ (forall (i : nat) (b : byte),
        (12 <= i < 32)%nat -> encodeCrossChainSend Scenario.R !! i <> Some b ->
        exists r' : address,
          r' <> Scenario.R
          /\ decode (<[i := b]> (encodeCrossChainSend Scenario.R))
             = Ok (mkComposeData r' CROSS_CHAIN_SEND [])).
Proof.
  assert (Hr : is_address Scenario.R) by (unfold is_address, Scenario.R; lia).
  split; [exact Hr|].
  exact (decode_truncated_extended_mutated Scenario.R 0
           (encodeCrossChainSend Scenario.R)
           (mkComposeData Scenario.R CROSS_CHAIN_SEND [])
           Hr (or_introl (conj eq_refl eq_refl))).
Defined.

(** C8 as stated fails on both counts: a valid encoding followed by one
    more byte still decodes, and changing the last byte of the recipient
    slot, or of the tag slot, of a valid encoding decodes to a well-formed
    triple with another recipient, or another message type. *)
Lemma decode_accepts_extra_and_mutated_bytes :
  decode (encodeCrossChainSend 1 ++ [x00])
  = Ok (mkComposeData 1 CROSS_CHAIN_SEND [])
  /\ encodeCrossChainSend 1 !! 31%nat = Some x01
  /\ decode (<[31%nat := x02]> (encodeCrossChainSend 1))
     = Ok (mkComposeData 2 CROSS_CHAIN_SEND [])
  /\ encodeCrossChainSend 1 !! 63%nat = Some x00
  /\ decode (<[63%nat := x01]> (encodeCrossChainSend 1))
     = Ok (mkComposeData 1 BURNT []).
Proof. repeat split; vm_compute; reflexivity. Qed.

End CodecTheorems.

(** * Further properties of the three contracts *)

(** ** The codec on arbitrary input *)

Section CodecFacts.
Import ComposeMsg.

(** What a successful ABI decode says about its input. *)
Lemma abi_decode_Ok_inv (data : bytes) (a tag : Z) (b : bytes) :
  Abi.decode_address_enum_bytes members data = Ok (a, tag, b) ->
  (96 <= length data)%nat
  /\ a = Abi.mload data 0 /\ is_address a
  /\ tag = Abi.mload data 32 /\ 0 <= tag < members
  /\ (length b + 32 <= length data)%nat
  /\ Z.of_nat (length b) <= UINT64_MAX.
Proof.
  unfold Abi.decode_address_enum_bytes.
  pose proof (mload_range data 0) as Hr0.
  pose proof (mload_range data 32) as Hr1.
  pose proof (mload_range data 64) as Hr2.
  pose proof (mload_range data (Z.to_nat (Abi.mload data 64))) as Hr3.
  destruct (Z.ltb_spec (Z.of_nat (length data)) 96); [discriminate|].
  destruct (Z.ltb_spec UINT160_MAX (Abi.mload data 0)); [discriminate|].
  destruct (Z.ltb_spec (Abi.mload data 32) members); [|discriminate].
  cbn [negb].
  destruct (Z.ltb_spec UINT64_MAX (Abi.mload data 64)); [discriminate|].
  destruct (Z.ltb_spec (Abi.mload data 64 + 31) (Z.of_nat (length data)));
    [|discriminate].
  cbn [negb].
  destruct (Z.ltb_spec UINT64_MAX (Abi.mload data (Z.to_nat (Abi.mload data 64))));
    [discriminate|].
  destruct (Z.ltb_spec (Z.of_nat (length data))
              (Abi.mload data 64 + 32 + Abi.mload data (Z.to_nat (Abi.mload data 64))));
    [discriminate|].
  intros H'. injection H' as <- <- <-.
  assert (Hlen : length (take (Z.to_nat (Abi.mload data (Z.to_nat (Abi.mload data 64))))
                   (drop (Z.to_nat (Abi.mload data 64 + 32)) data))
                 = Z.to_nat (Abi.mload data (Z.to_nat (Abi.mload data 64)))).
  { rewrite length_take, length_drop. lia. }
  rewrite Hlen. unfold_ranges. repeat split; lia.
Qed.

Lemma decode_Ok_inv (data : bytes) (d : ComposeData) :
  decode data = Ok d ->
  (96 <= length data)%nat
  /\ recipient d = Abi.mload data 0 /\ is_address (recipient d)
  /\ tag_of (messageType d) = Abi.mload data 32
  /\ (length (additionalData d) + 32 <= length data)%nat
  /\ Z.of_nat (length (additionalData d)) <= UINT64_MAX.
Proof.
  unfold decode.
  destruct (Abi.decode_address_enum_bytes members data) as [[[a tag] b]|e] eqn:Hd;
    [|discriminate].
  cbn [bind]. intros H. injection H as <-. cbn [recipient messageType additionalData].
  destruct (abi_decode_Ok_inv _ _ _ _ Hd) as (Hl & Ha & Ha' & Ht & Ht' & Hb & Hb').
  split; [assumption|]. split; [assumption|]. split; [assumption|].
  split; [|split; assumption].
  rewrite <- Ht. unfold of_tag, members in *.
  destruct (Z.eqb_spec tag 0); simpl; lia.
Qed.

Lemma decode_short (data : bytes) :
  (length data < 96)%nat ->
  Abi.decode_address_enum_bytes members data = Revert EmptyRevert.
Proof.
  intros H. unfold Abi.decode_address_enum_bytes.
  destruct (Z.ltb_spec (Z.of_nat (length data)) 96); [reflexivity|lia].
Qed.

End CodecFacts.

Section CodecExtras.
Import ComposeMsg.

(** X1: the general [encode] round-trips: for an address [r], either
    message type and any additional data, [decode] of [encode] returns the
    three fields, each getter returns its field, and [isMessageType] tells
    whether the type is the expected one. *)
Theorem encode_round_trip (r : address) (t : MessageType) (aux : bytes) :
  is_address r -> Z.of_nat (length aux) <= UINT64_MAX ->
  decode (encode r t aux) = Ok (mkComposeData r t aux)
  /\ getRecipient (encode r t aux) = Ok r
  /\ getMessageType (encode r t aux) = Ok t
  /\ getAdditionalData (encode r t aux) = Ok aux
  /\ forall t' : MessageType,
       isMessageType (encode r t aux) t' = Ok (MessageType_eqb t t').
Proof.
  intros Hr Haux.
  pose proof (tag_of_range t) as Ht.
  assert (Hd : Abi.decode_address_enum_bytes members (encode r t aux)
               = Ok (r, tag_of t, aux)).
  { unfold encode. apply decode_encode; try assumption. unfold_ranges. lia. }
  unfold decode, getRecipient, getAdditionalData, isMessageType, getMessageType.
  rewrite Hd. cbn [bind]. rewrite of_tag_tag_of. repeat split; reflexivity.
Qed.

Lemma encode_round_trip_witness :
  (is_address 48879 /\ Z.of_nat (length [x01; x02; x03]) <= UINT64_MAX)
  /\ decode (encode 48879 BURNT [x01; x02; x03])
     = Ok (mkComposeData 48879 BURNT [x01; x02; x03])
  /\ getAdditionalData (encode 48879 BURNT [x01; x02; x03]) = Ok [x01; x02; x03].
Proof.
  assert (Hr : is_address 48879) by (unfold is_address; lia).
  assert (Ha : Z.of_nat (length [x01; x02; x03]) <= UINT64_MAX)
    by (unfold UINT64_MAX; simpl; lia).
  split; [split; assumption|].
  destruct (encode_round_trip 48879 BURNT [x01; x02; x03] Hr Ha)
    as (Hd & _ & _ & Hg & _).
  split; assumption.
Defined.

(** X2: on every byte string the getters are projections of [decode]: they
    return the corresponding field when [decode] returns and fail with the
    error of [decode] when it fails; [getBurntAmount] is [decode] followed by
    the type check and the decoding of the additional data. *)
Theorem getters_follow_decode (data : bytes) :
  getRecipient data = (let* d := decode data in Ok (recipient d))
  /\ getMessageType data = (let* d := decode data in Ok (messageType d))
  /\ getAdditionalData data = (let* d := decode data in Ok (additionalData d))
  /\ (forall t : MessageType,
        isMessageType data t
        = (let* d := decode data in Ok (MessageType_eqb (messageType d) t)))
  /\ getBurntAmount data
     = (let* d := decode data in
        check require (MessageType_eqb (messageType d) BURNT)
                "ComposeMsg: not a BURNT message" in
        Abi.decode_uint256 (additionalData d)).
Proof.
  unfold getRecipient, getMessageType, getAdditionalData, isMessageType,
    getMessageType, getBurntAmount, decode.
  destruct (Abi.decode_address_enum_bytes members data) as [[[a tag] b]|e];
    repeat split; reflexivity.
Qed.

(** X3: [encode] is injective: two encodings are the same byte string only
    if recipient, message type and additional data are the same. *)
Theorem encode_injective (r r' : address) (t t' : MessageType) (aux aux' : bytes) :
  is_address r -> is_address r' ->
  Z.of_nat (length aux) <= UINT64_MAX -> Z.of_nat (length aux') <= UINT64_MAX ->
  encode r t aux = encode r' t' aux' ->
  r = r' /\ t = t' /\ aux = aux'.
Proof.
  intros Hr Hr' Ha Ha' He.
  pose proof (decode_encode_ComposeMsg r t aux [] Hr Ha) as H1.
  pose proof (decode_encode_ComposeMsg r' t' aux' [] Hr' Ha') as H2.
  rewrite app_nil_r in H1, H2. rewrite He, H2 in H1.
  injection H1 as -> -> ->. repeat split.
Qed.

Lemma encode_injective_witness :
  encode 1 BURNT [x07] <> encode 1 BURNT [x08].
Proof.
  assert (Hr : is_address 1) by (unfold is_address; lia).
  assert (Ha : Z.of_nat (length [x07]) <= UINT64_MAX)
    by (unfold UINT64_MAX; simpl; lia).
  assert (Hb : Z.of_nat (length [x08]) <= UINT64_MAX)
    by (unfold UINT64_MAX; simpl; lia).
  intros He.
  destruct (encode_injective 1 1 BURNT BURNT [x07] [x08] Hr Hr Ha Hb He)
    as (_ & _ & Haux).
  discriminate Haux.
Defined.

(** X4: an encoding is a whole number of 32-byte words: four words of head
    and length, then the additional data padded to the next multiple of
    32. *)
Theorem encode_length (r : address) (t : MessageType) (aux : bytes) :
  (length (encode r t aux) mod 32 = 0)%nat
  /\ (128 + length aux <= length (encode r t aux))%nat
  /\ (length (encode r t aux) < 160 + length aux)%nat.
Proof.
  rewrite length_encode. unfold Abi.padding. rewrite length_replicate.
  pose proof (Nat.div_mod_eq (length aux) 32) as Hdm.
  pose proof (Nat.mod_upper_bound (length aux) 32 ltac:(lia)) as Hm.
  set (q := (length aux / 32)%nat) in *. set (m := (length aux mod 32)%nat) in *.
  destruct (Nat.eq_dec m 0%nat) as [Hz|Hnz].
  - rewrite Hz. change ((32 - 0) mod 32)%nat with 0%nat.
    split; [|lia].
    replace (128 + (length aux + 0))%nat with ((4 + q) * 32)%nat by lia.
    apply Nat.Div0.mod_mul.
  - rewrite (Nat.mod_small (32 - m) 32) by lia.
    split; [|lia].
    replace (128 + (length aux + (32 - m)))%nat with ((5 + q) * 32)%nat by lia.
    apply Nat.Div0.mod_mul.
Qed.

(** X5: a byte string shorter than the three head words, the empty one
    included, is rejected by [decode] and by every getter with the
    decoder's revert without data. *)
Theorem short_payload_rejected (data : bytes) :
  (length data < 96)%nat ->
  decode data = Revert EmptyRevert
  /\ getRecipient data = Revert EmptyRevert
  /\ getMessageType data = Revert EmptyRevert
  /\ getAdditionalData data = Revert EmptyRevert
  /\ getBurntAmount data = Revert EmptyRevert
  /\ forall t : MessageType, isMessageType data t = Revert EmptyRevert.
Proof.
  intros H.
  unfold decode, getRecipient, getAdditionalData, getBurntAmount, isMessageType,
    getMessageType.
  rewrite (decode_short data H). repeat split; reflexivity.
Qed.

Lemma short_payload_rejected_witness :
  (length (@nil byte) < 96)%nat
  /\ decode [] = Revert EmptyRevert
  /\ getBurntAmount [] = Revert EmptyRevert.
Proof.
  assert (H : (length (@nil byte) < 96)%nat) by (simpl; lia).
  split; [exact H|].
  destruct (short_payload_rejected [] H) as (Hd & _ & _ & _ & Hb & _).
  split; assumption.
Defined.

(** X6: whatever [decode] accepts is well formed: the recipient is a
    160-bit address (the first word of the input), the type is the one whose
    tag is the second word, and the additional data fits in the input after
    the head. *)
Theorem decode_result_well_formed (data : bytes) (d : ComposeData) :
  decode data = Ok d ->
  (96 <= length data)%nat
  /\ is_address (recipient d)
  /\ recipient d = Abi.mload data 0
  /\ tag_of (messageType d) = Abi.mload data 32
  /\ (length (additionalData d) + 32 <= length data)%nat.
Proof.
  intros H.
  destruct (decode_Ok_inv data d H) as (Hl & Hr & Hr' & Ht & Hb & _).
  repeat split; try assumption; apply Hr'.
Qed.

Lemma decode_result_well_formed_witness :
  decode (encodeBurnt 48879 7)
  = Ok (mkComposeData 48879 BURNT (Abi.encode_uint256 7))
  /\ is_address 48879
  /\ (32 + 32 <= length (encodeBurnt 48879%Z 7%Z))%nat.
Proof.
  assert (H : decode (encodeBurnt 48879 7)
              = Ok (mkComposeData 48879 BURNT (Abi.encode_uint256 7)))
    by (vm_compute; reflexivity).
  split; [exact H|].
  destruct (decode_result_well_formed _ _ H) as (_ & Hr & _ & _ & Hb).
  split; [exact Hr | exact Hb].
Defined.

(** X7: [getBurntAmount] of a BURNT payload reads the first 32 bytes of the
    additional data as the amount: data longer than 32 bytes is accepted and
    the rest ignored, data shorter than 32 bytes is rejected with the
    decoder's revert without data. *)
Theorem getBurntAmount_reads_first_word (r : address) (aux : bytes) :
  is_address r -> Z.of_nat (length aux) <= UINT64_MAX ->
  getBurntAmount (encode r BURNT aux)
  = if (length aux <? 32)%nat then Revert EmptyRevert
    else Ok (be_value (take 32 aux)).
Proof.
  intros Hr Ha. rewrite getBurntAmount_encode by assumption.
  unfold Abi.decode_uint256, Abi.mload. now rewrite drop_0.
Qed.

Lemma getBurntAmount_reads_first_word_witness :
  (is_address 1 /\ Z.of_nat (length (Abi.word 7 ++ [xff])) <= UINT64_MAX)
  /\ getBurntAmount (encode 1 BURNT (Abi.word 7 ++ [xff])) = Ok 7
  /\ getBurntAmount (encode 1 BURNT [x07]) = Revert EmptyRevert.
Proof.
  assert (Hr : is_address 1) by (unfold is_address; lia).
  assert (Ha : Z.of_nat (length (Abi.word 7 ++ [xff])) <= UINT64_MAX)
    by (vm_compute; discriminate).
  assert (Hb : Z.of_nat (length [x07]) <= UINT64_MAX)
    by (vm_compute; discriminate).
  split; [split; assumption|]. split.
  - rewrite (getBurntAmount_reads_first_word 1 (Abi.word 7 ++ [xff]) Hr Ha).
    vm_compute. reflexivity.
  - rewrite (getBurntAmount_reads_first_word 1 [x07] Hr Hb).
    vm_compute. reflexivity.
Defined.

(** X8: encoding what [decode] returned and decoding again gives the same
    result: every accepted byte string has a canonical encoding with the
    same meaning. *)
Theorem decode_encode_decode (data : bytes) (d : ComposeData) :
  decode data = Ok d ->
  decode (encode (recipient d) (messageType d) (additionalData d)) = Ok d.
Proof.
  intros H.
  destruct (decode_Ok_inv data d H) as (_ & _ & Hr & _ & _ & Hb).
  rewrite <- (app_nil_r (encode _ _ _)).
  rewrite decode_encode_ComposeMsg by assumption. now destruct d.
Qed.

Lemma decode_encode_decode_witness :
  decode (encodeCrossChainSend 5 ++ [xff])
  = Ok (mkComposeData 5 CROSS_CHAIN_SEND [])
  /\ decode (encode 5 CROSS_CHAIN_SEND [])
     = Ok (mkComposeData 5 CROSS_CHAIN_SEND []).
Proof.
  assert (H : decode (encodeCrossChainSend 5 ++ [xff])
              = Ok (mkComposeData 5 CROSS_CHAIN_SEND []))
    by (vm_compute; reflexivity).
  split; [exact H|].
  exact (decode_encode_decode _ _ H).
Defined.

End CodecExtras.

(** ** The receiver: frame, failures and replay *)

Section ReceiverMoreFacts.
Import Manager ComposeMsg.
Context {L : Type} `{Token : IERC20 L}.

Lemma envelope_layout (n e a f : Z) (p : bytes) :
  (76 <= length (OFTComposeMsgCodec.envelope n e a f p))%nat
  /\ take 32 (drop 12 (OFTComposeMsgCodec.envelope n e a f p)) = be_bytes 32 a
  /\ drop 76 (OFTComposeMsgCodec.envelope n e a f p) = p.
Proof.
  unfold OFTComposeMsgCodec.envelope. split; [|split].
  - rewrite !length_app, !length_be_bytes. lia.
  - rewrite (app_assoc (be_bytes 8 n)).
    rewrite drop_app_length' by (rewrite length_app, !length_be_bytes; lia).
    apply take_app_length'. now rewrite length_be_bytes.
  - rewrite !app_assoc.
    apply drop_app_length'. rewrite !length_app, !length_be_bytes. lia.
Qed.

(** The handler on an envelope built from its fields. *)
Lemma lzCompose_envelope s ledger sender oApp guid n e a f p ex extra :
  lzCompose s ledger sender oApp guid (OFTComposeMsgCodec.envelope n e a f p) ex extra
  = (check revert_if (paused s) ContractPaused in
     check revert_if (negb (sender =? endpoint s)) UnauthorizedSender in
     check revert_if (negb (oApp =? trustedOFT s)) UntrustedOApp in
     process s ledger (a mod 2 ^ 256) p).
Proof.
  destruct (envelope_layout n e a f p) as (Hlen & Ha & Hp).
  destruct (paused s) eqn:Hpa; [now rewrite lzCompose_paused|].
  cbn [revert_if bind].
  destruct (Z.eqb_spec sender (endpoint s)) as [Hs|Hs];
    [|now rewrite lzCompose_wrong_sender].
  destruct (Z.eqb_spec oApp (trustedOFT s)) as [Ho|Ho];
    [|now rewrite lzCompose_wrong_origin].
  cbn [negb revert_if bind].
  rewrite lzCompose_authenticated by assumption.
  now rewrite Ha, Hp, be_value_be_bytes, pow256_32.
Qed.

Lemma process_frame s ledger amount payload s' ledger' ev :
  0 <= amount ->
  process s ledger amount payload = Ok (s', ledger', ev) ->
  self s' = self s /\ owner s' = owner s /\ endpoint s' = endpoint s
  /\ trustedOFT s' = trustedOFT s /\ paused s' = paused s
  /\ totalProcessed s' = totalProcessed s + amount
  /\ totalProcessed s' <= UINT256_MAX
  /\ processed_amounts ev = amount.
Proof.
  intros Ha H.
  destruct (process_Ok_inv _ _ _ _ _ _ _ H) as (d & _ & _ & _ & Hsum & -> & ->).
  cbn. repeat split; try reflexivity; lia.
Qed.

Lemma amount_nonneg (m : bytes) : 0 <= be_value (take 32 (drop 12 m)).
Proof. apply be_value_range. Qed.

End ReceiverMoreFacts.

Section ReceiverExtras.
Import Manager ComposeMsg.

(** X9: a compose message that is processed changes nothing of the manager
    but [totalProcessed]: address, owner, endpoint, trusted OFT and pause
    flag are kept, and the counter does not decrease and stays a
    [uint256]. *)
Theorem lzCompose_frame {L : Type} `{Token : IERC20 L}
    (s s' : State) (ledger ledger' : L) (sender oApp : address) (guid : Z)
    (m : bytes) (ex : address) (extra : bytes) (ev : list event) :
  lzCompose s ledger sender oApp guid m ex extra = Ok (s', ledger', ev) ->
  self s' = self s /\ owner s' = owner s /\ endpoint s' = endpoint s
  /\ trustedOFT s' = trustedOFT s /\ paused s' = paused s
  /\ totalProcessed s <= totalProcessed s' <= UINT256_MAX.
Proof.
  intros H.
  destruct (lzCompose_Ok_inv _ _ _ _ _ _ _ _ _ _ _ H) as (_ & _ & _ & _ & Hp).
  pose proof (amount_nonneg m) as Ha.
  destruct (process_frame _ _ _ _ _ _ _ Ha Hp)
    as (H1 & H2 & H3 & H4 & H5 & H6 & H7 & _).
  repeat split; try assumption; lia.
Qed.

Lemma lzCompose_frame_witness :
  lzCompose Scenario.active Scenario.funds Scenario.T1 Scenario.O1 0
    Scenario.send_envelope 0 []
  = Ok (mkState Scenario.manager Scenario.admin Scenario.T1 Scenario.O1 100 false,
        <[Scenario.R := 100]> (<[Scenario.manager := 900]> Scenario.funds),
        [TokensProcessed Scenario.R 100 CROSS_CHAIN_SEND])
  /\ totalProcessed Scenario.active <= 100 <= UINT256_MAX.
Proof.
  assert (H : lzCompose Scenario.active Scenario.funds Scenario.T1 Scenario.O1 0
    Scenario.send_envelope 0 []
  = Ok (mkState Scenario.manager Scenario.admin Scenario.T1 Scenario.O1 100 false,
        <[Scenario.R := 100]> (<[Scenario.manager := 900]> Scenario.funds),
        [TokensProcessed Scenario.R 100 CROSS_CHAIN_SEND]))
    by (vm_compute; reflexivity).
  split; [exact H|].
  exact (proj2 (proj2 (proj2 (proj2 (proj2
           (lzCompose_frame _ _ _ _ _ _ _ _ _ _ _ H)))))).
Defined.

(** X10: past the pause and source checks, a delivery that cannot be read
    is turned down before any transfer: an envelope shorter than its 76
    bytes of fixed fields reverts without data, a payload that [decode]
    rejects makes the handler revert with the same error, and a BURNT
    payload whose additional data is shorter than 32 bytes reverts without
    data. *)
Theorem lzCompose_unreadable_delivery {L : Type} `{Token : IERC20 L}
    (s : State) (ledger : L) (sender oApp : address) (guid : Z)
    (m : bytes) (ex : address) (extra : bytes) :
  paused s = false -> sender = endpoint s -> oApp = trustedOFT s ->
  ((length m < 76)%nat ->
   lzCompose s ledger sender oApp guid m ex extra = Revert EmptyRevert)
  /\ (forall (payload : bytes) (e : error),
        OFTComposeMsgCodec.composeMsg m = Ok payload ->
        ComposeMsg.decode payload = Revert e ->
        lzCompose s ledger sender oApp guid m ex extra = Revert e)
  /\ (forall (payload : bytes) (d : ComposeData),
        OFTComposeMsgCodec.composeMsg m = Ok payload ->
        ComposeMsg.decode payload = Ok d ->
        messageType d = BURNT -> (length (additionalData d) < 32)%nat ->
        lzCompose s ledger sender oApp guid m ex extra = Revert EmptyRevert).
Proof.
  intros Hp Hs Ho. split; [|split].
  - intros Hm. now apply lzCompose_short_envelope.
  - intros payload e Hm Hd.
    destruct (composeMsg_Ok_length _ _ Hm) as [Hlen ->].
    rewrite lzCompose_authenticated by assumption.
    unfold process. now rewrite Hd.
  - intros payload d Hm Hd Ht Hb.
    destruct (composeMsg_Ok_length _ _ Hm) as [Hlen ->].
    rewrite lzCompose_authenticated by assumption.
    unfold process. rewrite Hd. cbn [bind]. rewrite Ht.
    unfold Abi.decode_uint256.
    destruct (Nat.ltb_spec (length (additionalData d)) 32); [reflexivity|lia].
Qed.

Lemma lzCompose_unreadable_delivery_witness :
  lzCompose Scenario.active Scenario.funds Scenario.T1 Scenario.O1 0
    [x01; x02; x03] 0 [] = Revert EmptyRevert
  /\ lzCompose Scenario.active Scenario.funds Scenario.T1 Scenario.O1 0
       (OFTComposeMsgCodec.envelope 1 2 100 3
          (ComposeMsg.encode Scenario.R BURNT [x07])) 0 []
     = Revert EmptyRevert.
Proof.
  split.
  - apply (proj1 (lzCompose_unreadable_delivery Scenario.active Scenario.funds
      Scenario.T1 Scenario.O1 0 [x01; x02; x03] 0 [] eq_refl eq_refl eq_refl)).
    simpl. lia.
  - apply (proj2 (proj2 (lzCompose_unreadable_delivery Scenario.active Scenario.funds
      Scenario.T1 Scenario.O1 0
      (OFTComposeMsgCodec.envelope 1 2 100 3 (ComposeMsg.encode Scenario.R BURNT [x07]))
      0 [] eq_refl eq_refl eq_refl))
      (ComposeMsg.encode Scenario.R BURNT [x07])
      (mkComposeData Scenario.R BURNT [x07])).
    + vm_compute. reflexivity.
    + vm_compute. reflexivity.
    + reflexivity.
    + simpl. lia.
Defined.

(** X11: a delivery that reads well can still fail late, and then nothing
    of it stays: a revert of the token transfer is passed on as it is, and a
    counter that would pass the largest [uint256] gives [Panic(0x11)] after
    the transfer was made; in both cases state and balances are the ones
    before the call. *)
Theorem lzCompose_late_failures {L : Type} `{Token : IERC20 L}
    (s : State) (ledger : L) (sender oApp : address) (guid : Z)
    (m payload : bytes) (ex : address) (extra : bytes)
    (amount : Z) (d : ComposeData) :
  paused s = false -> sender = endpoint s -> oApp = trustedOFT s ->
  OFTComposeMsgCodec.amountLD m = Ok amount ->
  OFTComposeMsgCodec.composeMsg m = Ok payload ->
  ComposeMsg.decode payload = Ok d ->
  (messageType d = BURNT -> (32 <= length (additionalData d))%nat) ->
  (forall e : error,
     safeTransfer (trustedOFT s) (self s) (recipient d) amount ledger = Revert e ->
     lzCompose s ledger sender oApp guid m ex extra = Revert e)
  /\ (forall ledger' : L,
        safeTransfer (trustedOFT s) (self s) (recipient d) amount ledger = Ok ledger' ->
        UINT256_MAX < totalProcessed s + amount ->
        lzCompose s ledger sender oApp guid m ex extra = Revert (Panic 17)
        /\ state_after s ledger (lzCompose s ledger sender oApp guid m ex extra)
           = (s, ledger)).
Proof.
  intros Hp Hs Ho Ha Hm Hd Hb.
  destruct (composeMsg_Ok_length _ _ Hm) as [Hlen ->].
  destruct (envelope_fields m Hlen) as (_ & _ & Ha' & _).
  rewrite Ha' in Ha. injection Ha as <-.
  rewrite lzCompose_authenticated by assumption.
  unfold process. rewrite Hd. cbn [bind].
  assert (Hu : messageType d = BURNT ->
               exists b, Abi.decode_uint256 (additionalData d) = Ok b).
  { intros Ht. specialize (Hb Ht). unfold Abi.decode_uint256.
    destruct (Nat.ltb_spec (length (additionalData d)) 32); [lia|eauto]. }
  split.
  - intros e He. destruct (messageType d).
    + now rewrite He.
    + destruct (Hu eq_refl) as [b ->]. cbn [bind]. now rewrite He.
  - intros ledger' Ht Hov.
    assert (Hr : (let* ledger'0 :=
                match messageType d with
                | CROSS_CHAIN_SEND =>
                    safeTransfer (trustedOFT s) (self s) (recipient d)
                      (be_value (take 32 (drop 12 m))) ledger
                | BURNT =>
                    let* _ := Abi.decode_uint256 (additionalData d) in
                    safeTransfer (trustedOFT s) (self s) (recipient d)
                      (be_value (take 32 (drop 12 m))) ledger
                end in
              let* total := checked_add (totalProcessed s)
                              (be_value (take 32 (drop 12 m))) in
              Ok (mkState (self s) (owner s) (endpoint s) (trustedOFT s) total (paused s),
                  ledger'0,
                  [TokensProcessed (recipient d) (be_value (take 32 (drop 12 m)))
                     (messageType d)]))
             = Revert (Panic 17)).
    { assert (Hc : checked_add (totalProcessed s) (be_value (take 32 (drop 12 m)))
                   = Revert (Panic 17)).
      { unfold checked_add.
        destruct (Z.ltb_spec UINT256_MAX
                    (totalProcessed s + be_value (take 32 (drop 12 m))));
          [reflexivity|lia]. }
      destruct (messageType d).
      - rewrite Ht. cbn [bind]. now rewrite Hc.
      - destruct (Hu eq_refl) as [b ->]. cbn [bind]. rewrite Ht. cbn [bind].
        now rewrite Hc. }
    rewrite Hr. split; reflexivity.
Qed.

Lemma lzCompose_late_failures_witness :
  lzCompose Scenario.active ∅ Scenario.T1 Scenario.O1 0 Scenario.send_envelope 0 []
  = Revert (ERC20InsufficientBalance Scenario.manager 0 100)
  /\ lzCompose (mkState Scenario.manager Scenario.admin Scenario.T1 Scenario.O1
                  UINT256_MAX false)
       Scenario.funds Scenario.T1 Scenario.O1 0 Scenario.send_envelope 0 []
     = Revert (Panic 17).
Proof.
  split.
  - apply (proj1 (lzCompose_late_failures Scenario.active ∅ Scenario.T1 Scenario.O1 0
      Scenario.send_envelope (ComposeMsg.encodeCrossChainSend Scenario.R) 0 []
      100 (mkComposeData Scenario.R CROSS_CHAIN_SEND [])
      eq_refl eq_refl eq_refl
      ltac:(vm_compute; reflexivity) ltac:(vm_compute; reflexivity)
      ltac:(vm_compute; reflexivity) ltac:(intros H; discriminate H))).
    vm_compute. reflexivity.
  - apply (proj2 (lzCompose_late_failures
      (mkState Scenario.manager Scenario.admin Scenario.T1 Scenario.O1 UINT256_MAX false)
      Scenario.funds Scenario.T1 Scenario.O1 0
      Scenario.send_envelope (ComposeMsg.encodeCrossChainSend Scenario.R) 0 []
      100 (mkComposeData Scenario.R CROSS_CHAIN_SEND [])
      eq_refl eq_refl eq_refl
      ltac:(vm_compute; reflexivity) ltac:(vm_compute; reflexivity)
      ltac:(vm_compute; reflexivity) ltac:(intros H; discriminate H))
      (<[Scenario.R := 100]> (<[Scenario.manager := 900]> Scenario.funds))).
    + vm_compute. reflexivity.
    + vm_compute. reflexivity.
Defined.

(** X12: the handler looks at two fields of the envelope only, the
    delivered amount and the inner payload: message id, executor, extra
    data, nonce, source chain and compose-from identifier have no effect on
    what it does. *)
Theorem lzCompose_reads_amount_and_payload_only {L : Type} `{Token : IERC20 L}
    (s : State) (ledger : L) (sender oApp : address)
    (guid guid' nonce nonce' srcEid srcEid' from from' amount : Z)
    (payload : bytes) (ex ex' : address) (extra extra' : bytes) :
  lzCompose s ledger sender oApp guid
    (OFTComposeMsgCodec.envelope nonce srcEid amount from payload) ex extra
  = lzCompose s ledger sender oApp guid'
      (OFTComposeMsgCodec.envelope nonce' srcEid' amount from' payload) ex' extra'.
Proof. now rewrite !lzCompose_envelope. Qed.

(** X13: the handler keeps no record of what it has processed: an envelope
    that was processed is processed again when it is delivered again, as
    long as the token transfer succeeds once more and the counter has room;
    the counter then stands at twice the amount above its start. *)
Theorem lzCompose_processes_redelivery {L : Type} `{Token : IERC20 L}
    (s s1 : State) (ledger ledger1 ledger2 : L) (sender oApp : address)
    (guid : Z) (m payload : bytes) (ex : address) (extra : bytes)
    (ev : list event) (amount : Z) (d : ComposeData) :
  lzCompose s ledger sender oApp guid m ex extra = Ok (s1, ledger1, ev) ->
  OFTComposeMsgCodec.amountLD m = Ok amount ->
  OFTComposeMsgCodec.composeMsg m = Ok payload ->
  ComposeMsg.decode payload = Ok d ->
  safeTransfer (trustedOFT s) (self s) (recipient d) amount ledger1 = Ok ledger2 ->
  totalProcessed s + 2 * amount <= UINT256_MAX ->
  exists s2 : State,
    lzCompose s1 ledger1 sender oApp guid m ex extra = Ok (s2, ledger2, ev)
    /\ totalProcessed s2 = totalProcessed s + 2 * amount.
Proof.
  intros H Ha Hm Hd Ht Hsum.
  destruct (lzCompose_Ok_inv _ _ _ _ _ _ _ _ _ _ _ H) as (Hp & Hs & Ho & Hlen & Hproc).
  destruct (composeMsg_Ok_length _ _ Hm) as [_ ->].
  destruct (envelope_fields m Hlen) as (_ & _ & Ha' & _).
  rewrite Ha' in Ha. injection Ha as <-.
  destruct (process_Ok_inv _ _ _ _ _ _ _ Hproc)
    as (d' & Hd' & Hb & _ & _ & Hs1 & Hev).
  rewrite Hd in Hd'. injection Hd' as <-.
  assert (Hb' : messageType d = BURNT -> (32 <= length (additionalData d))%nat).
  { intros Hty. destruct (Hb Hty) as [b Hdec]. unfold Abi.decode_uint256 in Hdec.
    destruct (Nat.ltb_spec (length (additionalData d)) 32); [discriminate|lia]. }
  subst s1 ev. eexists. split.
  - rewrite lzCompose_authenticated by assumption.
    apply (process_Ok _ ledger1 _ (drop 76 m) d ledger2 Hd Hb').
    + exact Ht.
    + cbn. lia.
  - cbn. lia.
Qed.

Lemma lzCompose_processes_redelivery_witness :
  exists s2 : State,
    lzCompose (mkState Scenario.manager Scenario.admin Scenario.T1 Scenario.O1 100 false)
      (<[Scenario.R := 100]> (<[Scenario.manager := 900]> Scenario.funds))
      Scenario.T1 Scenario.O1 0 Scenario.send_envelope 0 []
    = Ok (s2, <[Scenario.R := 200]> (<[Scenario.manager := 800]> Scenario.funds),
          [TokensProcessed Scenario.R 100 CROSS_CHAIN_SEND])
    /\ totalProcessed s2 = totalProcessed Scenario.active + 2 * 100.
Proof.
  apply (lzCompose_processes_redelivery Scenario.active _ Scenario.funds _ _
           Scenario.T1 Scenario.O1 0 Scenario.send_envelope
           (ComposeMsg.encodeCrossChainSend Scenario.R) 0 [] _ 100
           (mkComposeData Scenario.R CROSS_CHAIN_SEND [])).
  - vm_compute. reflexivity.
  - vm_compute. reflexivity.
  - vm_compute. reflexivity.
  - vm_compute. reflexivity.
  - vm_compute. reflexivity.
  - vm_compute. discriminate.
Defined.

(** X14: [updateEndpoint] is for the owner and refuses the zero address;
    on success it emits the old and the new endpoint, changes the endpoint
    only, and from then on an active receiver turns down every caller other
    than the new endpoint, the former endpoint included, with
    [UnauthorizedSender]. *)
Theorem updateEndpoint_effect {L : Type} `{Token : IERC20 L}
    (s : State) (sender _newEndpoint : address) :
  (sender <> owner s ->
   updateEndpoint s sender _newEndpoint = Revert (OwnableUnauthorizedAccount sender))
  /\ (_newEndpoint = 0 ->
      updateEndpoint s (owner s) _newEndpoint = Revert ZeroAddress)
  /\ (_newEndpoint <> 0 ->
      exists s' : State,
        updateEndpoint s (owner s) _newEndpoint
        = Ok (s', [EndpointUpdated (endpoint s) _newEndpoint])
        /\ endpoint s' = _newEndpoint
        /\ self s' = self s /\ owner s' = owner s /\ trustedOFT s' = trustedOFT s
        /\ totalProcessed s' = totalProcessed s /\ paused s' = paused s
        /\ forall (ledger : L) (caller oApp : address) (guid : Z) (m : bytes)
                  (ex : address) (extra : bytes),
             paused s = false -> caller <> _newEndpoint ->
             lzCompose s' ledger caller oApp guid m ex extra
             = Revert UnauthorizedSender).
Proof.
  split; [|split].
  - intros Hs. unfold updateEndpoint, onlyOwner.
    destruct (Z.eqb_spec (owner s) sender); [congruence|reflexivity].
  - intros ->. unfold updateEndpoint, onlyOwner. now rewrite Z.eqb_refl.
  - intros Hn. eexists. split.
    + unfold updateEndpoint, onlyOwner. rewrite Z.eqb_refl. cbn [negb revert_if bind].
      destruct (Z.eqb_spec _newEndpoint 0); [contradiction|reflexivity].
    + cbn. repeat split; try reflexivity.
      intros ledger caller oApp guid m ex extra Hp Hc.
      now apply lzCompose_wrong_sender.
Qed.

Lemma updateEndpoint_effect_witness :
  updateEndpoint Scenario.active 2 Scenario.T2 = Revert (OwnableUnauthorizedAccount 2)
  /\ updateEndpoint Scenario.active Scenario.admin 0 = Revert ZeroAddress
  /\ exists s' : State,
       updateEndpoint Scenario.active Scenario.admin Scenario.T2
       = Ok (s', [EndpointUpdated Scenario.T1 Scenario.T2])
       /\ lzCompose s' Scenario.funds Scenario.T1 Scenario.O1 0
            Scenario.send_envelope 0 [] = Revert UnauthorizedSender.
Proof.
  split; [|split].
  - apply (proj1 (updateEndpoint_effect (L := gmap Z Z) Scenario.active 2 Scenario.T2)).
    vm_compute. discriminate.
  - apply (proj1 (proj2 (updateEndpoint_effect (L := gmap Z Z)
                           Scenario.active Scenario.admin 0))).
    reflexivity.
  - destruct (proj2 (proj2 (updateEndpoint_effect (L := gmap Z Z)
                              Scenario.active Scenario.admin Scenario.T2))
                ltac:(vm_compute; discriminate))
      as (s' & Hu & _ & _ & _ & _ & _ & _ & Hl).
    exists s'. split; [exact Hu|].
    apply Hl; [reflexivity | vm_compute; discriminate].
Defined.

(** X15: [updateTrustedOFT] is for the owner and refuses the zero address;
    on success it emits the old and the new token, changes the trusted OFT
    only, and from then on an active receiver turns down, with
    [UntrustedOApp], every message the endpoint delivers for another origin,
    the former trusted OFT included. *)
Theorem updateTrustedOFT_effect {L : Type} `{Token : IERC20 L}
    (s : State) (sender _newTrustedOFT : address) :
  (sender <> owner s ->
   updateTrustedOFT s sender _newTrustedOFT
   = Revert (OwnableUnauthorizedAccount sender))
  /\ (_newTrustedOFT = 0 ->
      updateTrustedOFT s (owner s) _newTrustedOFT = Revert ZeroAddress)
  /\ (_newTrustedOFT <> 0 ->
      exists s' : State,
        updateTrustedOFT s (owner s) _newTrustedOFT
        = Ok (s', [TrustedOFTUpdated (trustedOFT s) _newTrustedOFT])
        /\ trustedOFT s' = _newTrustedOFT
        /\ self s' = self s /\ owner s' = owner s /\ endpoint s' = endpoint s
        /\ totalProcessed s' = totalProcessed s /\ paused s' = paused s
        /\ forall (ledger : L) (oApp : address) (guid : Z) (m : bytes)
                  (ex : address) (extra : bytes),
             paused s = false -> oApp <> _newTrustedOFT ->
             lzCompose s' ledger (endpoint s) oApp guid m ex extra
             = Revert UntrustedOApp).
Proof.
  split; [|split].
  - intros Hs. unfold updateTrustedOFT, onlyOwner.
    destruct (Z.eqb_spec (owner s) sender); [congruence|reflexivity].
  - intros ->. unfold updateTrustedOFT, onlyOwner. now rewrite Z.eqb_refl.
  - intros Hn. eexists. split.
    + unfold updateTrustedOFT, onlyOwner. rewrite Z.eqb_refl.
      cbn [negb revert_if bind].
      destruct (Z.eqb_spec _newTrustedOFT 0); [contradiction|reflexivity].
    + cbn. repeat split; try reflexivity.
      intros ledger oApp guid m ex extra Hp Hc.
      now apply lzCompose_wrong_origin.
Qed.

Lemma updateTrustedOFT_effect_witness :
  updateTrustedOFT Scenario.active 2 Scenario.O2
  = Revert (OwnableUnauthorizedAccount 2)
  /\ updateTrustedOFT Scenario.active Scenario.admin 0 = Revert ZeroAddress
  /\ exists s' : State,
       updateTrustedOFT Scenario.active Scenario.admin Scenario.O2
       = Ok (s', [TrustedOFTUpdated Scenario.O1 Scenario.O2])
       /\ lzCompose s' Scenario.funds Scenario.T1 Scenario.O1 0
            Scenario.send_envelope 0 [] = Revert UntrustedOApp.
Proof.
  split; [|split].
  - apply (proj1 (updateTrustedOFT_effect (L := gmap Z Z) Scenario.active 2 Scenario.O2)).
    vm_compute. discriminate.
  - apply (proj1 (proj2 (updateTrustedOFT_effect (L := gmap Z Z)
                           Scenario.active Scenario.admin 0))).
    reflexivity.
  - destruct (proj2 (proj2 (updateTrustedOFT_effect (L := gmap Z Z)
                              Scenario.active Scenario.admin Scenario.O2))
                ltac:(vm_compute; discriminate))
      as (s' & Hu & _ & _ & _ & _ & _ & _ & Hl).
    exists s'. split; [exact Hu|].
    apply (Hl Scenario.funds Scenario.O1 0 Scenario.send_envelope 0 []);
      [reflexivity | vm_compute; discriminate].
Defined.

(** X16: only the owner can pause or resume: any other caller gets
    Ownable's unauthorized-account error.  The owner's call emits the new
    flag, changes the flag only, overrides whatever was set before, and once
    the flag is set every delivery is turned down with [ContractPaused]. *)
Theorem setPaused_effect {L : Type} `{Token : IERC20 L}
    (s : State) (sender : address) (_paused : bool) :
  (sender <> owner s ->
   setPaused s sender _paused = Revert (OwnableUnauthorizedAccount sender))
  /\ exists s' : State,
       setPaused s (owner s) _paused = Ok (s', [PausedStateChanged _paused])
       /\ paused s' = _paused
       /\ self s' = self s /\ owner s' = owner s /\ endpoint s' = endpoint s
       /\ trustedOFT s' = trustedOFT s /\ totalProcessed s' = totalProcessed s
       /\ (forall b : bool, setPaused s' (owner s') b = setPaused s (owner s) b)
       /\ (_paused = true ->
           forall (ledger : L) (caller oApp : address) (guid : Z) (m : bytes)
                  (ex : address) (extra : bytes),
             lzCompose s' ledger caller oApp guid m ex extra = Revert ContractPaused).
Proof.
  split.
  - intros Hs. unfold setPaused, onlyOwner.
    destruct (Z.eqb_spec (owner s) sender); [congruence|reflexivity].
  - eexists. split.
    + unfold setPaused, onlyOwner. rewrite Z.eqb_refl. reflexivity.
    + cbn. do 7 (split; [reflexivity|]).
      intros -> ledger caller oApp guid m ex extra.
      now apply lzCompose_paused.
Qed.

Lemma setPaused_effect_witness :
  setPaused Scenario.active 2 true = Revert (OwnableUnauthorizedAccount 2)
  /\ exists s' : State,
       setPaused Scenario.active Scenario.admin true
       = Ok (s', [PausedStateChanged true])
       /\ lzCompose s' Scenario.funds Scenario.T1 Scenario.O1 0
            Scenario.send_envelope 0 [] = Revert ContractPaused.
Proof.
  split.
  - apply (proj1 (setPaused_effect (L := gmap Z Z) Scenario.active 2 true)).
    vm_compute. discriminate.
  - destruct (proj2 (setPaused_effect (L := gmap Z Z) Scenario.active Scenario.admin true))
      as (s' & Hu & _ & _ & _ & _ & _ & _ & _ & Hl).
    exists s'. split; [exact Hu|]. now apply Hl.
Defined.

(** X17: [emergencyWithdraw] is for the owner and refuses the zero address
    as recipient.  It is not subject to the pause flag and works for any
    token: whenever it returns, it has made one transfer of the given amount
    of the given token from the manager to the recipient, left the manager's
    state, [totalProcessed] included, as it was, and emitted nothing; and the
    owner's call returns whenever that transfer succeeds. *)
Theorem emergencyWithdraw_effect {L : Type} `{Token : IERC20 L}
    (s : State) (ledger : L) (sender _token _to : address) (_amount : Z) :
  (sender <> owner s ->
   emergencyWithdraw s ledger sender _token _to _amount
   = Revert (OwnableUnauthorizedAccount sender))
  /\ (_to = 0 ->
      emergencyWithdraw s ledger (owner s) _token _to _amount = Revert ZeroAddress)
  /\ (forall (s' : State) (ledger' : L) (ev : list event),
        emergencyWithdraw s ledger sender _token _to _amount = Ok (s', ledger', ev) ->
        s' = s /\ ev = [] /\ sender = owner s /\ _to <> 0
        /\ safeTransfer _token (self s) _to _amount ledger = Ok ledger')
  /\ (forall ledger' : L,
        _to <> 0 ->
        safeTransfer _token (self s) _to _amount ledger = Ok ledger' ->
        emergencyWithdraw s ledger (owner s) _token _to _amount
        = Ok (s, ledger', [])).
Proof.
  split; [|split; [|split]].
  - intros Hs. unfold emergencyWithdraw, onlyOwner.
    destruct (Z.eqb_spec (owner s) sender); [congruence|reflexivity].
  - intros ->. unfold emergencyWithdraw, onlyOwner. now rewrite Z.eqb_refl.
  - intros s' ledger' ev. unfold emergencyWithdraw, onlyOwner.
    destruct (Z.eqb_spec (owner s) sender) as [Ho|]; [|discriminate].
    cbn [negb revert_if bind].
    destruct (Z.eqb_spec _to 0) as [|Hto]; [discriminate|].
    cbn [revert_if bind].
    destruct (safeTransfer _token (self s) _to _amount ledger) as [l1|e];
      [|discriminate].
    cbn [bind]. intros H. injection H as <- <- <-. auto.
  - intros ledger' Hto Ht. unfold emergencyWithdraw, onlyOwner.
    rewrite Z.eqb_refl. cbn [negb revert_if bind].
    destruct (Z.eqb_spec _to 0); [contradiction|].
    cbn [revert_if bind]. now rewrite Ht.
Qed.

Lemma emergencyWithdraw_effect_witness :
  emergencyWithdraw Scenario.halted Scenario.funds 2 Scenario.O1 Scenario.R 300
  = Revert (OwnableUnauthorizedAccount 2)
  /\ emergencyWithdraw Scenario.halted Scenario.funds Scenario.admin Scenario.O1 0 300
     = Revert ZeroAddress
  /\ emergencyWithdraw Scenario.halted Scenario.funds Scenario.admin
       Scenario.O1 Scenario.R 300
     = Ok (Scenario.halted,
           <[Scenario.R := 300]> (<[Scenario.manager := 700]> Scenario.funds), []).
Proof.
  split; [|split].
  - apply (proj1 (emergencyWithdraw_effect Scenario.halted Scenario.funds 2
                    Scenario.O1 Scenario.R 300)).
    vm_compute. discriminate.
  - apply (proj1 (proj2 (emergencyWithdraw_effect Scenario.halted Scenario.funds
                           Scenario.admin Scenario.O1 0 300))).
    reflexivity.
  - apply (proj2 (proj2 (proj2 (emergencyWithdraw_effect Scenario.halted Scenario.funds
                                  Scenario.admin Scenario.O1 Scenario.R 300)))).
    + vm_compute. discriminate.
    + vm_compute. reflexivity.
Defined.

(** X18: [initialize] refuses a zero endpoint, a zero trusted OFT or a zero
    owner with [ZeroAddress]; otherwise it leaves the receiver active, with
    the given endpoint, trusted OFT and owner and a counter of zero. *)
Theorem initialize_effect (this _endpoint _trustedOFT _owner : address) :
  (_endpoint = 0 \/ _trustedOFT = 0 \/ _owner = 0 ->
   initialize this _endpoint _trustedOFT _owner = Revert ZeroAddress)
  /\ (forall s : State,
        initialize this _endpoint _trustedOFT _owner = Ok s ->
        _endpoint <> 0 /\ _trustedOFT <> 0 /\ _owner <> 0
        /\ s = mkState this _owner _endpoint _trustedOFT 0 false)
  /\ (_endpoint <> 0 -> _trustedOFT <> 0 -> _owner <> 0 ->
      initialize this _endpoint _trustedOFT _owner
      = Ok (mkState this _owner _endpoint _trustedOFT 0 false)).
Proof.
  unfold initialize.
  destruct (Z.eqb_spec _endpoint 0); destruct (Z.eqb_spec _trustedOFT 0);
    destruct (Z.eqb_spec _owner 0); cbn [orb revert_if bind];
    (split; [|split]);
    try (intros; reflexivity); try (intros; contradiction);
    try (intros s H; discriminate H);
    try (intros [?|[?|?]]; contradiction).
  intros s H. injection H as <-. auto.
Qed.

Lemma initialize_effect_witness :
  initialize Scenario.manager Scenario.T1 0 Scenario.admin = Revert ZeroAddress
  /\ initialize Scenario.manager Scenario.T1 Scenario.O1 Scenario.admin
     = Ok Scenario.active.
Proof.
  split.
  - apply (proj1 (initialize_effect Scenario.manager Scenario.T1 0 Scenario.admin)).
    right. left. reflexivity.
  - apply (proj2 (proj2 (initialize_effect Scenario.manager Scenario.T1 Scenario.O1
                           Scenario.admin))); vm_compute; discriminate.
Defined.

End ReceiverExtras.

(** ** Runs of the receiver *)

Section RunFacts.
Import Manager ComposeMsg.
Context {L : Type} `{Token : IERC20 L}.

Lemma processed_amounts_app (l1 l2 : list event) :
  processed_amounts (l1 ++ l2) = processed_amounts l1 + processed_amounts l2.
Proof.
  induction l1 as [|e l1 IH]; [reflexivity|].
  cbn [app processed_amounts fold_right] in *.
  fold (processed_amounts (l1 ++ l2)). fold (processed_amounts l1).
  rewrite IH. destruct e; lia.
Qed.

(** What one call that returns can do to the manager. *)
Lemma perform_Ok_inv (s s' : State) (ledger ledger' : L) (c : call)
    (ev : list event) :
  perform s ledger c = Ok (s', ledger', ev) ->
  self s' = self s
  /\ (endpoint s <> 0 -> endpoint s' <> 0)
  /\ (trustedOFT s <> 0 -> trustedOFT s' <> 0)
  /\ totalProcessed s' = totalProcessed s + processed_amounts ev
  /\ 0 <= processed_amounts ev
  /\ (totalProcessed s <= UINT256_MAX -> totalProcessed s' <= UINT256_MAX).
Proof.
  destruct c as [sender oApp guid m ex extra | sender e | sender t | sender b
                | sender token to amount]; cbn [perform]; intros H.
  - destruct (lzCompose_Ok_inv _ _ _ _ _ _ _ _ _ _ _ H) as (_ & _ & _ & _ & Hp).
    pose proof (amount_nonneg m) as Ha.
    destruct (process_frame _ _ _ _ _ _ _ Ha Hp)
      as (H1 & _ & H3 & H4 & _ & H6 & H7 & H8).
    rewrite H1, H3, H4, H6, H8. repeat split; auto; lia.
  - unfold keep_ledger, updateEndpoint, onlyOwner in H.
    destruct (negb (owner s =? sender)); [discriminate|].
    cbn [revert_if bind] in H.
    destruct (Z.eqb_spec e 0); [discriminate|].
    cbn [revert_if bind] in H. injection H as <- _ <-. cbn.
    repeat split; auto; lia.
  - unfold keep_ledger, updateTrustedOFT, onlyOwner in H.
    destruct (negb (owner s =? sender)); [discriminate|].
    cbn [revert_if bind] in H.
    destruct (Z.eqb_spec t 0); [discriminate|].
    cbn [revert_if bind] in H. injection H as <- _ <-. cbn.
    repeat split; auto; lia.
  - unfold keep_ledger, setPaused, onlyOwner in H.
    destruct (negb (owner s =? sender)); [discriminate|].
    cbn [revert_if bind] in H. injection H as <- _ <-. cbn.
    repeat split; auto; lia.
  - unfold emergencyWithdraw, onlyOwner in H.
    destruct (negb (owner s =? sender)); [discriminate|].
    cbn [revert_if bind] in H.
    destruct (to =? 0); [discriminate|].
    cbn [revert_if bind] in H.
    destruct (safeTransfer token (self s) to amount ledger); [|discriminate].
    cbn [bind] in H. injection H as <- _ <-. cbn.
    repeat split; auto; lia.
Qed.

Lemma run_cons (c : call) (calls : list call) (w : State * L * list event) :
  run (c :: calls) w = run calls (step w c).
Proof. reflexivity. Qed.

Lemma run_invariants (calls : list call) (s s' : State) (ledger ledger' : L)
    (log log' : list event) :
  run calls (s, ledger, log) = (s', ledger', log') ->
  self s' = self s
  /\ (endpoint s <> 0 -> endpoint s' <> 0)
  /\ (trustedOFT s <> 0 -> trustedOFT s' <> 0)
  /\ totalProcessed s' - processed_amounts log'
     = totalProcessed s - processed_amounts log
  /\ processed_amounts log <= processed_amounts log'
  /\ (totalProcessed s <= UINT256_MAX -> totalProcessed s' <= UINT256_MAX).
Proof.
  revert s ledger log.
  induction calls as [|c calls IH]; intros s ledger log H.
  - cbn in H. injection H as <- <- <-. repeat split; auto; lia.
  - rewrite run_cons in H. cbn [step] in H.
    destruct (perform s ledger c) as [[[s1 l1] ev]|e] eqn:Hp.
    + destruct (perform_Ok_inv _ _ _ _ _ _ Hp) as (H1 & H2 & H3 & H4 & H5 & H6).
      destruct (IH _ _ _ H) as (I1 & I2 & I3 & I4 & I5 & I6).
      rewrite processed_amounts_app in I4, I5.
      repeat split; auto; try congruence; lia.
    + exact (IH _ _ _ H).
Qed.

End RunFacts.

Section RunExtras.
Import Manager ComposeMsg.

(** X19: whatever calls are made to the functions the manager declares, by
    whatever callers, a receiver whose endpoint and trusted OFT are not the
    zero address keeps them so (as [initialize] sets them up), and its own
    address does not change. *)
Theorem run_keeps_trusted_parties {L : Type} `{Token : IERC20 L}
    (calls : list call) (s s' : State) (ledger ledger' : L)
    (log log' : list event) :
  endpoint s <> 0 -> trustedOFT s <> 0 ->
  run calls (s, ledger, log) = (s', ledger', log') ->
  endpoint s' <> 0 /\ trustedOFT s' <> 0 /\ self s' = self s.
Proof.
  intros He Ht H.
  destruct (run_invariants _ _ _ _ _ _ _ H) as (H1 & H2 & H3 & _).
  auto.
Qed.

Lemma run_keeps_trusted_parties_witness :
  run [CallUpdateEndpoint Scenario.admin 0;
       CallUpdateTrustedOFT Scenario.admin Scenario.O2;
       CallUpdateEndpoint 2 Scenario.T2]
    (Scenario.active, Scenario.funds, [])
  = (mkState Scenario.manager Scenario.admin Scenario.T1 Scenario.O2 0 false,
     Scenario.funds, [TrustedOFTUpdated Scenario.O1 Scenario.O2])
  /\ Scenario.T1 <> 0 /\ Scenario.O2 <> 0.
Proof.
  assert (H : run [CallUpdateEndpoint Scenario.admin 0;
                   CallUpdateTrustedOFT Scenario.admin Scenario.O2;
                   CallUpdateEndpoint 2 Scenario.T2]
                (Scenario.active, Scenario.funds, [])
              = (mkState Scenario.manager Scenario.admin Scenario.T1 Scenario.O2 0 false,
                 Scenario.funds, [TrustedOFTUpdated Scenario.O1 Scenario.O2]))
    by (vm_compute; reflexivity).
  split; [exact H|].
  assert (H0 : endpoint Scenario.active <> 0) by (vm_compute; discriminate).
  assert (H1 : trustedOFT Scenario.active <> 0) by (vm_compute; discriminate).
  destruct (run_keeps_trusted_parties _ _ _ _ _ _ _ H0 H1 H) as (He & Ht & _).
  split; [exact He | exact Ht].
Defined.

(** X20: over any run of calls the counter moves in step with the events:
    [totalProcessed] grows by exactly the sum of the amounts of the
    [TokensProcessed] events emitted, it never decreases and it stays a
    [uint256]; a receiver that starts at zero with an empty log always shows
    the sum of the amounts it reported. *)
Theorem run_counter_matches_events {L : Type} `{Token : IERC20 L}
    (calls : list call) (s s' : State) (ledger ledger' : L)
    (log log' : list event) :
  totalProcessed s <= UINT256_MAX ->
  run calls (s, ledger, log) = (s', ledger', log') ->
  totalProcessed s' = totalProcessed s + (processed_amounts log' - processed_amounts log)
  /\ totalProcessed s <= totalProcessed s' <= UINT256_MAX.
Proof.
  intros Hm H.
  destruct (run_invariants _ _ _ _ _ _ _ H) as (_ & _ & _ & H4 & H5 & H6).
  specialize (H6 Hm). repeat split; lia.
Qed.

Lemma run_counter_matches_events_witness :
  run [CallLzCompose Scenario.T1 Scenario.O1 0 Scenario.send_envelope 0 [];
       CallLzCompose Scenario.T2 Scenario.O1 0 Scenario.send_envelope 0 [];
       CallSetPaused Scenario.admin true;
       CallLzCompose Scenario.T1 Scenario.O1 0 Scenario.burnt_envelope 0 [];
       CallSetPaused Scenario.admin false;
       CallLzCompose Scenario.T1 Scenario.O1 0 Scenario.burnt_envelope 0 []]
    (Scenario.active, Scenario.funds, [])
  = (mkState Scenario.manager Scenario.admin Scenario.T1 Scenario.O1 200 false,
     <[Scenario.R := 200]> (<[Scenario.manager := 800]> Scenario.funds),
     [TokensProcessed Scenario.R 100 CROSS_CHAIN_SEND;
      PausedStateChanged true; PausedStateChanged false;
      TokensProcessed Scenario.R 100 BURNT])
  /\ 200 = 0 + (processed_amounts
                  [TokensProcessed Scenario.R 100 CROSS_CHAIN_SEND;
                   PausedStateChanged true; PausedStateChanged false;
                   TokensProcessed Scenario.R 100 BURNT]
                - processed_amounts []).
Proof.
  assert (H : run [CallLzCompose Scenario.T1 Scenario.O1 0 Scenario.send_envelope 0 [];
       CallLzCompose Scenario.T2 Scenario.O1 0 Scenario.send_envelope 0 [];
       CallSetPaused Scenario.admin true;
       CallLzCompose Scenario.T1 Scenario.O1 0 Scenario.burnt_envelope 0 [];
       CallSetPaused Scenario.admin false;
       CallLzCompose Scenario.T1 Scenario.O1 0 Scenario.burnt_envelope 0 []]
    (Scenario.active, Scenario.funds, [])
  = (mkState Scenario.manager Scenario.admin Scenario.T1 Scenario.O1 200 false,
     <[Scenario.R := 200]> (<[Scenario.manager := 800]> Scenario.funds),
     [TokensProcessed Scenario.R 100 CROSS_CHAIN_SEND;
      PausedStateChanged true; PausedStateChanged false;
      TokensProcessed Scenario.R 100 BURNT])) by (vm_compute; reflexivity).
  split; [exact H|].
  assert (H0 : totalProcessed Scenario.active <= UINT256_MAX)
    by (vm_compute; discriminate).
  exact (proj1 (run_counter_matches_events _ _ _ _ _ _ _ H0 H)).
Defined.

End RunExtras.

(** ** The branch for other message types *)

Section DeadBranch.
Import Manager ComposeMsg.

Lemma decode_errors (data : bytes) (e : error) :
  ComposeMsg.decode data = Revert e -> e = EmptyRevert \/ e = Panic 65.
Proof.
  unfold ComposeMsg.decode, Abi.decode_address_enum_bytes.
  repeat match goal with
  | |- context [if ?c then _ else _] => destruct c
  end; cbn [bind]; intros H; inversion H; auto.
Qed.

(** X21: the [UnsupportedMessageType] revert of [lzCompose] is never taken:
    unless the token itself reverts with that error, no caller, origin or
    message makes [lzCompose] fail with [UnsupportedMessageType]. *)
Theorem lzCompose_never_UnsupportedMessageType {L : Type} `{Token : IERC20 L}
    (s : State) (ledger : L) (sender oApp : address) (guid : Z)
    (m : bytes) (ex : address) (extra : bytes) :
  (forall (token from to : address) (amount : Z) (l : L),
     safeTransfer token from to amount l <> Revert UnsupportedMessageType) ->
  lzCompose s ledger sender oApp guid m ex extra <> Revert UnsupportedMessageType.
Proof.
  intros Htok.
  destruct (paused s) eqn:Hp; [now rewrite lzCompose_paused|].
  destruct (Z.eq_dec sender (endpoint s)) as [Hs|Hs];
    [|now rewrite lzCompose_wrong_sender].
  destruct (Z.eq_dec oApp (trustedOFT s)) as [Ho|Ho];
    [|now rewrite lzCompose_wrong_origin].
  destruct (Nat.le_gt_cases 76 (length m)) as [Hm|Hm];
    [|now rewrite lzCompose_short_envelope].
  rewrite lzCompose_authenticated by assumption. unfold process.
  destruct (ComposeMsg.decode (drop 76 m)) as [d|e] eqn:Hd.
  - cbn [bind].
    set (amount := be_value (take 32 (drop 12 m))).
    pose proof (Htok (trustedOFT s) (self s) (recipient d) amount ledger) as Ht.
    assert (Hc : forall l1 : L,
      (let* total := checked_add (totalProcessed s) amount in
       Ok (mkState (self s) (owner s) (endpoint s) (trustedOFT s) total (paused s),
           l1, [TokensProcessed (recipient d) amount (messageType d)]))
      <> Revert UnsupportedMessageType).
    { intros l1. unfold checked_add.
      destruct (UINT256_MAX <? totalProcessed s + amount); cbn [bind]; discriminate. }
    destruct (messageType d).
    + destruct (safeTransfer _ _ _ _ _) as [l1|e]; cbn [bind];
        [apply Hc | intros H; injection H as ->; now apply Ht].
    + unfold Abi.decode_uint256.
      destruct (length (additionalData d) <? 32)%nat; cbn [bind]; [discriminate|].
      destruct (safeTransfer _ _ _ _ _) as [l1|e]; cbn [bind];
        [apply Hc | intros H; injection H as ->; now apply Ht].
  - cbn [bind]. destruct (decode_errors _ _ Hd) as [-> | ->]; discriminate.
Qed.

Lemma lzCompose_never_UnsupportedMessageType_witness :
  lzCompose Scenario.active Scenario.funds Scenario.T1 Scenario.O1 0
    Scenario.tag2_envelope 0 [] <> Revert UnsupportedMessageType.
Proof.
  apply lzCompose_never_UnsupportedMessageType.
  intros token from to amount l. cbn [safeTransfer Ledger.token].
  unfold Ledger.transfer.
  destruct (to =? 0); [discriminate|].
  destruct (Ledger.balanceOf l from <? amount); discriminate.
Defined.

End DeadBranch.

(** ** The initiator: registration, quoting and sending *)

Section InitiatorMoreFacts.
Import AlphaOFT ComposeMsg.
Context {C : Type} `{Core : OFTCore C}.

Lemma validDestination_Ok (st : State C) (d : Z) :
  d <> 0 -> mapping_get (peers st) d <> 0 ->
  mapping_get (crossChainManagers st) d <> 0 ->
  validDestination st d = Ok tt.
Proof.
  intros Hd Hp Hm. unfold validDestination.
  destruct (Z.eqb_spec d 0); [contradiction|].
  destruct (Z.eqb_spec (mapping_get (peers st) d) 0); [contradiction|].
  destruct (Z.eqb_spec (mapping_get (crossChainManagers st) d) 0); [contradiction|].
  reflexivity.
Qed.

Lemma validDestination_Ok_inv (st : State C) (d : Z) :
  validDestination st d = Ok tt ->
  d <> 0 /\ mapping_get (peers st) d <> 0
  /\ mapping_get (crossChainManagers st) d <> 0.
Proof.
  unfold validDestination.
  destruct (Z.eqb_spec d 0); [discriminate|].
  destruct (Z.eqb_spec (mapping_get (peers st) d) 0); [discriminate|].
  destruct (Z.eqb_spec (mapping_get (crossChainManagers st) d) 0); [discriminate|].
  auto.
Qed.

Lemma setCrossChainManager_Ok (st : State C) (d : Z) (m : address) :
  d <> 0 -> m <> 0 ->
  setCrossChainManager st (owner st) d m
  = Ok (mkState (owner st) (peers st) (<[d := m]> (crossChainManagers st)) (core st),
        [CrossChainManagerUpdated d (mapping_get (crossChainManagers st) d) m]).
Proof.
  intros Hd Hm. unfold setCrossChainManager, onlyOwner. rewrite Z.eqb_refl.
  cbn [negb revert_if bind].
  destruct (Z.eqb_spec d 0); [contradiction|].
  destruct (Z.eqb_spec m 0); [contradiction|]. reflexivity.
Qed.

Lemma setCrossChainManager_Ok_inv (st st' : State C) (sender : address) (d : Z)
    (m : address) (ev : list event) :
  setCrossChainManager st sender d m = Ok (st', ev) ->
  sender = owner st /\ d <> 0 /\ m <> 0
  /\ st' = mkState (owner st) (peers st) (<[d := m]> (crossChainManagers st)) (core st).
Proof.
  unfold setCrossChainManager, onlyOwner.
  destruct (Z.eqb_spec (owner st) sender); [|discriminate].
  cbn [negb revert_if bind].
  destruct (Z.eqb_spec d 0); [discriminate|].
  destruct (Z.eqb_spec m 0); [discriminate|].
  cbn [revert_if bind]. intros H. injection H as <- _. auto.
Qed.

End InitiatorMoreFacts.

Section InitiatorExtras.
Import AlphaOFT ComposeMsg.

(** X22: [setCrossChainManager] is for the owner and refuses destination 0
    ([InvalidEndpointId], checked first) and the zero address
    ([ZeroAddress]).  On success it emits the destination with the old and
    the new manager, the destination then reads the new manager, every other
    destination reads what it read before, and peers, owner and OFT state
    are untouched. *)
Theorem setCrossChainManager_effect {C : Type} `{Core : OFTCore C}
    (st : State C) (sender : address) (_dstEid : Z) (_crossChainManager : address) :
  (sender <> owner st ->
   setCrossChainManager st sender _dstEid _crossChainManager
   = Revert (OwnableUnauthorizedAccount sender))
  /\ (_dstEid = 0 ->
      setCrossChainManager st (owner st) _dstEid _crossChainManager
      = Revert InvalidEndpointId)
  /\ (_dstEid <> 0 -> _crossChainManager = 0 ->
      setCrossChainManager st (owner st) _dstEid _crossChainManager
      = Revert ZeroAddress)
  /\ (_dstEid <> 0 -> _crossChainManager <> 0 ->
      exists st' : State C,
        setCrossChainManager st (owner st) _dstEid _crossChainManager
        = Ok (st', [CrossChainManagerUpdated _dstEid
                      (mapping_get (crossChainManagers st) _dstEid)
                      _crossChainManager])
        /\ mapping_get (crossChainManagers st') _dstEid = _crossChainManager
        /\ (forall k : Z, k <> _dstEid ->
              mapping_get (crossChainManagers st') k
              = mapping_get (crossChainManagers st) k)
        /\ peers st' = peers st /\ owner st' = owner st /\ core st' = core st).
Proof.
  split; [|split; [|split]].
  - intros Hs. unfold setCrossChainManager, onlyOwner.
    destruct (Z.eqb_spec (owner st) sender); [congruence|reflexivity].
  - intros ->. unfold setCrossChainManager, onlyOwner. now rewrite Z.eqb_refl.
  - intros Hd ->. unfold setCrossChainManager, onlyOwner. rewrite Z.eqb_refl.
    cbn [negb revert_if bind].
    destruct (Z.eqb_spec _dstEid 0); [contradiction|reflexivity].
  - intros Hd Hm. eexists. split; [now apply setCrossChainManager_Ok|].
    cbn [crossChainManagers peers owner core]. unfold mapping_get.
    split; [now rewrite lookup_insert_eq|].
    split; [|auto].
    intros k Hk. now rewrite lookup_insert_ne by congruence.
Qed.

Lemma setCrossChainManager_effect_witness :
  setCrossChainManager Scenario.no_manager 2 Scenario.D Scenario.manager
  = Revert (OwnableUnauthorizedAccount 2)
  /\ setCrossChainManager Scenario.no_manager Scenario.admin 0 0
     = Revert InvalidEndpointId
  /\ setCrossChainManager Scenario.no_manager Scenario.admin Scenario.D 0
     = Revert ZeroAddress
  /\ exists st',
       setCrossChainManager Scenario.no_manager Scenario.admin Scenario.D Scenario.manager
       = Ok (st', [CrossChainManagerUpdated Scenario.D 0 Scenario.manager])
       /\ mapping_get (crossChainManagers st') Scenario.D = Scenario.manager.
Proof.
  split; [|split; [|split]].
  - apply (proj1 (setCrossChainManager_effect Scenario.no_manager 2
                    Scenario.D Scenario.manager)).
    vm_compute. discriminate.
  - apply (proj1 (proj2 (setCrossChainManager_effect Scenario.no_manager
                           Scenario.admin 0 0))).
    reflexivity.
  - apply (proj1 (proj2 (proj2 (setCrossChainManager_effect Scenario.no_manager
                                  Scenario.admin Scenario.D 0))));
      [vm_compute; discriminate | reflexivity].
  - assert (Hd : Scenario.D <> 0) by (vm_compute; discriminate).
    assert (Hm : Scenario.manager <> 0) by (vm_compute; discriminate).
    destruct (proj2 (proj2 (proj2 (setCrossChainManager_effect Scenario.no_manager
                Scenario.admin Scenario.D Scenario.manager))) Hd Hm)
      as (st' & Hs & Hl & _).
    exists st'. split; [exact Hs | exact Hl].
Defined.

(** X23: a registered manager can be replaced but not removed: whatever
    successful [setCrossChainManager] call is made, a destination that had a
    manager still has one, and a destination has no manager afterwards only
    if it had none before. *)
Theorem setCrossChainManager_never_unregisters {C : Type} `{Core : OFTCore C}
    (st st' : State C) (sender : address) (_dstEid : Z)
    (_crossChainManager : address) (ev : list event) (k : Z) :
  setCrossChainManager st sender _dstEid _crossChainManager = Ok (st', ev) ->
  mapping_get (crossChainManagers st) k <> 0 ->
  mapping_get (crossChainManagers st') k <> 0.
Proof.
  intros H Hk.
  destruct (setCrossChainManager_Ok_inv _ _ _ _ _ _ H) as (_ & Hd & Hm & ->).
  cbn [crossChainManagers]. unfold mapping_get in *.
  destruct (Z.eq_dec _dstEid k) as [->|Hne].
  - now rewrite lookup_insert_eq.
  - now rewrite lookup_insert_ne.
Qed.

Lemma setCrossChainManager_never_unregisters_witness :
  setCrossChainManager Scenario.wired Scenario.admin 40161 777
  = Ok (mkState Scenario.admin {[ Scenario.D := 12345 ]}
          (<[40161 := 777]> {[ Scenario.D := Scenario.manager ]}) [],
        [CrossChainManagerUpdated 40161 0 777])
  /\ mapping_get (<[40161 := 777]> {[ Scenario.D := Scenario.manager ]}) Scenario.D <> 0.
Proof.
  assert (H : setCrossChainManager Scenario.wired Scenario.admin 40161 777
              = Ok (mkState Scenario.admin {[ Scenario.D := 12345 ]}
                      (<[40161 := 777]> {[ Scenario.D := Scenario.manager ]}) [],
                    [CrossChainManagerUpdated 40161 0 777]))
    by (vm_compute; reflexivity).
  assert (Hk : mapping_get (crossChainManagers Scenario.wired) Scenario.D <> 0)
    by (vm_compute; discriminate).
  split; [exact H|].
  exact (setCrossChainManager_never_unregisters _ _ _ _ _ _ Scenario.D H Hk).
Defined.

(** X24: [quoteSendComposed] can be called by anyone and checks the
    destination as the send does: destination 0 gives [InvalidEndpointId],
    then a missing peer [NoPeerConfigured], then a missing manager
    [NoCrossChainManager]; with all three in place its result is the quote of
    the OFT core for the request addressed to the registered manager. *)
Theorem quoteSendComposed_preconditions {C : Type} `{Core : OFTCore C}
    (st : State C) (_to : address) (_amount _dstEid : Z)
    (t : MessageType) (pay : bool) (opts : bytes) :
  (_dstEid = 0 ->
   quoteSendComposed st _to _amount _dstEid t pay opts = Revert InvalidEndpointId)
  /\ (_dstEid <> 0 -> mapping_get (peers st) _dstEid = 0 ->
      quoteSendComposed st _to _amount _dstEid t pay opts = Revert NoPeerConfigured)
  /\ (_dstEid <> 0 -> mapping_get (peers st) _dstEid <> 0 ->
      mapping_get (crossChainManagers st) _dstEid = 0 ->
      quoteSendComposed st _to _amount _dstEid t pay opts
      = Revert NoCrossChainManager)
  /\ (_dstEid <> 0 -> mapping_get (peers st) _dstEid <> 0 ->
      mapping_get (crossChainManagers st) _dstEid <> 0 ->
      quoteSendComposed st _to _amount _dstEid t pay opts
      = quoteSend st
          {| dstEid := _dstEid;
             to := mapping_get (crossChainManagers st) _dstEid;
             amountLD := _amount;
             minAmountLD := _amount;
             extraOptions := opts;
             composeMsg := match t with
                           | CROSS_CHAIN_SEND => ComposeMsg.encodeCrossChainSend _to
                           | BURNT => ComposeMsg.encodeBurnt _to _amount
                           end;
             oftCmd := oftCmd_literal |} pay).
Proof.
  rewrite quoteSendComposed_request.
  split; [|split; [|split]].
  - intros ->. reflexivity.
  - intros Hd Hp. unfold validDestination.
    destruct (Z.eqb_spec _dstEid 0); [contradiction|]. now rewrite Hp.
  - intros Hd Hp Hm. unfold validDestination.
    destruct (Z.eqb_spec _dstEid 0); [contradiction|].
    destruct (Z.eqb_spec (mapping_get (peers st) _dstEid) 0); [contradiction|].
    now rewrite Hm.
  - intros Hd Hp Hm. rewrite validDestination_Ok by assumption. reflexivity.
Qed.

Lemma quoteSendComposed_preconditions_witness :
  quoteSendComposed Scenario.wired Scenario.R 1000 0 BURNT false []
  = Revert InvalidEndpointId
  /\ quoteSendComposed Scenario.no_peer Scenario.R 1000 Scenario.D BURNT false []
     = Revert NoPeerConfigured
  /\ quoteSendComposed Scenario.no_manager Scenario.R 1000 Scenario.D BURNT false []
     = Revert NoCrossChainManager
  /\ quoteSendComposed Scenario.wired Scenario.R 1000 Scenario.D BURNT false []
     = Ok Recorder.fee.
Proof.
  split; [|split; [|split]].
  - apply (proj1 (quoteSendComposed_preconditions Scenario.wired Scenario.R 1000 0
                    BURNT false [])).
    reflexivity.
  - apply (proj1 (proj2 (quoteSendComposed_preconditions Scenario.no_peer Scenario.R
                           1000 Scenario.D BURNT false [])));
      [vm_compute; discriminate | vm_compute; reflexivity].
  - apply (proj1 (proj2 (proj2 (quoteSendComposed_preconditions Scenario.no_manager
                                  Scenario.R 1000 Scenario.D BURNT false []))));
      [vm_compute; discriminate | vm_compute; discriminate | vm_compute; reflexivity].
  - rewrite (proj2 (proj2 (proj2 (quoteSendComposed_preconditions Scenario.wired
                                    Scenario.R 1000 Scenario.D BURNT false []))));
      [reflexivity | vm_compute; discriminate | vm_compute; discriminate
      | vm_compute; discriminate].
Defined.

(** X25: an owner's [sendComposed] to a valid destination quotes the request
    and then submits it: a revert of the quote or of the send is passed on
    as it is (after a failed quote nothing is sent); otherwise the call
    attaches the quoted native fee, or nothing when the fee is paid in the LZ
    token, names the caller as refund address, returns the state the send
    left and emits [CrossChainSendInitiated] with recipient, amount and
    destination. *)
Theorem sendComposed_outcome {C : Type} `{Core : OFTCore C}
    (st : State C) (_to : address) (_amount _dstEid : Z)
    (t : MessageType) (pay : bool) (opts : bytes) :
  _dstEid <> 0 -> mapping_get (peers st) _dstEid <> 0 ->
  mapping_get (crossChainManagers st) _dstEid <> 0 ->
  let sp := send_request st _to _amount _dstEid t opts in
  (forall e : error,
     quoteSend st sp pay = Revert e ->
     sendComposed st (owner st) _to _amount _dstEid t pay opts = Revert e)
  /\ (forall (fee : MessagingFee) (e : error),
        quoteSend st sp pay = Ok fee ->
        send st (if pay then 0 else nativeFee fee) sp fee (owner st) = Revert e ->
        sendComposed st (owner st) _to _amount _dstEid t pay opts = Revert e)
  /\ (forall (fee : MessagingFee) (st' : State C),
        quoteSend st sp pay = Ok fee ->
        send st (if pay then 0 else nativeFee fee) sp fee (owner st) = Ok st' ->
        sendComposed st (owner st) _to _amount _dstEid t pay opts
        = Ok (st', [CrossChainSendInitiated _to _amount _dstEid])).
Proof.
  intros Hd Hp Hm sp.
  rewrite sendComposed_owner, _sendComposed_request.
  rewrite validDestination_Ok by assumption. cbn [bind]. fold sp.
  split; [|split].
  - intros e ->. reflexivity.
  - intros fee e -> Hs. cbn [bind]. now rewrite Hs.
  - intros fee st' -> Hs. cbn [bind]. now rewrite Hs.
Qed.

Lemma sendComposed_outcome_witness :
  sendComposed Scenario.wired Scenario.admin Scenario.R 1000 Scenario.D
    CROSS_CHAIN_SEND true []
  = Ok (mkState Scenario.admin {[ Scenario.D := 12345 ]}
          {[ Scenario.D := Scenario.manager ]}
          [(0, send_request Scenario.wired Scenario.R 1000 Scenario.D
                 CROSS_CHAIN_SEND [], Recorder.fee, Scenario.admin)],
        [CrossChainSendInitiated Scenario.R 1000 Scenario.D]).
Proof.
  apply (proj2 (proj2 (sendComposed_outcome Scenario.wired Scenario.R 1000 Scenario.D
           CROSS_CHAIN_SEND true []
           ltac:(vm_compute; discriminate) ltac:(vm_compute; discriminate)
           ltac:(vm_compute; discriminate))) Recorder.fee).
  - reflexivity.
  - reflexivity.
Defined.

(** X26: registering a manager for a destination that has a peer makes the
    destination valid, and from then on quotes and sends for it are
    addressed to that manager. *)
Theorem registered_manager_is_the_target {C : Type} `{Core : OFTCore C}
    (st st' : State C) (sender : address) (_dstEid : Z)
    (_crossChainManager : address) (ev : list event) :
  setCrossChainManager st sender _dstEid _crossChainManager = Ok (st', ev) ->
  mapping_get (peers st) _dstEid <> 0 ->
  validDestination st' _dstEid = Ok tt
  /\ forall (_to : address) (_amount : Z) (t : MessageType) (pay : bool)
            (opts : bytes),
       to (send_request st' _to _amount _dstEid t opts) = _crossChainManager
       /\ quoteSendComposed st' _to _amount _dstEid t pay opts
          = quoteSend st' (send_request st' _to _amount _dstEid t opts) pay
       /\ sendComposed st' (owner st') _to _amount _dstEid t pay opts
          = (let sp := send_request st' _to _amount _dstEid t opts in
             let* msgFee := quoteSend st' sp pay in
             let* st'' := send st' (if pay then 0 else nativeFee msgFee) sp msgFee
                            (owner st') in
             Ok (st'', [CrossChainSendInitiated _to _amount _dstEid])).
Proof.
  intros H Hp.
  destruct (setCrossChainManager_Ok_inv _ _ _ _ _ _ H) as (_ & Hd & Hm & ->).
  assert (Hget : mapping_get (<[_dstEid := _crossChainManager]> (crossChainManagers st))
                   _dstEid = _crossChainManager)
    by (unfold mapping_get; now rewrite lookup_insert_eq).
  assert (Hv : validDestination
                 (mkState (owner st) (peers st)
                    (<[_dstEid := _crossChainManager]> (crossChainManagers st))
                    (core st)) _dstEid = Ok tt).
  { apply validDestination_Ok; cbn [peers crossChainManagers];
      [assumption | assumption | now rewrite Hget]. }
  split; [exact Hv|].
  intros _to _amount t pay opts. split; [exact Hget|]. split.
  - rewrite quoteSendComposed_request, Hv. reflexivity.
  - rewrite sendComposed_owner, _sendComposed_request, Hv. reflexivity.
Qed.

Lemma registered_manager_is_the_target_witness :
  setCrossChainManager Scenario.no_manager Scenario.admin Scenario.D Scenario.manager
  = Ok (Scenario.wired, [CrossChainManagerUpdated Scenario.D 0 Scenario.manager])
  /\ validDestination Scenario.wired Scenario.D = Ok tt
  /\ to (send_request Scenario.wired Scenario.R 1000 Scenario.D BURNT [])
     = Scenario.manager.
Proof.
  assert (H : setCrossChainManager Scenario.no_manager Scenario.admin
                Scenario.D Scenario.manager
              = Ok (Scenario.wired,
                    [CrossChainManagerUpdated Scenario.D 0 Scenario.manager]))
    by (vm_compute; reflexivity).
  assert (Hp : mapping_get (peers Scenario.no_manager) Scenario.D <> 0)
    by (vm_compute; discriminate).
  split; [exact H|].
  destruct (registered_manager_is_the_target _ _ _ _ _ _ H Hp) as (Hv & Hall).
  split; [exact Hv|].
  exact (proj1 (Hall Scenario.R 1000 BURNT false [])).
Defined.

(** X27: the [revert("Invalid message type")] of the two request builders
    is never taken: unless the OFT core itself reverts with that message,
    neither [quoteSendComposed] nor [sendComposed] fails with it, whatever
    the arguments. *)
Theorem Invalid_message_type_never_raised {C : Type} `{Core : OFTCore C}
    (st : State C) (sender _to : address) (_amount _dstEid : Z)
    (t : MessageType) (pay : bool) (opts : bytes) :
  (forall (st0 : State C) (sp : SendParam) (p : bool),
     quoteSend st0 sp p <> Revert (ErrorString "Invalid message type")) ->
  (forall (st0 : State C) (v : Z) (sp : SendParam) (fee : MessagingFee)
          (refund : address),
     send st0 v sp fee refund <> Revert (ErrorString "Invalid message type")) ->
  quoteSendComposed st _to _amount _dstEid t pay opts
  <> Revert (ErrorString "Invalid message type")
  /\ sendComposed st sender _to _amount _dstEid t pay opts
     <> Revert (ErrorString "Invalid message type").
Proof.
  intros Hq Hs.
  assert (Hv : validDestination st _dstEid = Ok tt
               \/ exists e, validDestination st _dstEid = Revert e
                            /\ e <> ErrorString "Invalid message type").
  { unfold validDestination.
    destruct (_dstEid =? 0); [right; eexists; split; [reflexivity|discriminate]|].
    destruct (mapping_get (peers st) _dstEid =? 0);
      [right; eexists; split; [reflexivity|discriminate]|].
    destruct (mapping_get (crossChainManagers st) _dstEid =? 0);
      [right; eexists; split; [reflexivity|discriminate]|].
    now left. }
  split.
  - rewrite quoteSendComposed_request.
    destruct Hv as [->|(e & -> & He)]; cbn [bind]; [apply Hq|congruence].
  - destruct (Z.eq_dec sender (owner st)) as [->|Hne];
      [|now rewrite sendComposed_not_owner].
    rewrite sendComposed_owner, _sendComposed_request.
    destruct Hv as [->|(e & -> & He)]; cbn [bind]; [|congruence].
    pose proof (Hq st (send_request st _to _amount _dstEid t opts) pay) as Hq'.
    destruct (quoteSend st (send_request st _to _amount _dstEid t opts) pay)
      as [fee|e]; cbn [bind]; [|congruence].
    pose proof (Hs st (if pay then 0 else nativeFee fee)
                  (send_request st _to _amount _dstEid t opts) fee (owner st)) as Hs'.
    destruct (send st _ _ fee (owner st)) as [st'|e]; cbn [bind];
      [discriminate|congruence].
Qed.

Lemma Invalid_message_type_never_raised_witness :
  quoteSendComposed Scenario.wired Scenario.R 1000 Scenario.D BURNT false []
  <> Revert (ErrorString "Invalid message type")
  /\ sendComposed Scenario.wired Scenario.admin Scenario.R 1000 Scenario.D
       BURNT false []
     <> Revert (ErrorString "Invalid message type").
Proof.
  apply Invalid_message_type_never_raised.
  - intros st0 sp p. cbn. discriminate.
  - intros st0 v sp fee refund. cbn. discriminate.
Defined.

End InitiatorExtras.

(** ** From the initiator to the receiver *)

Section EndToEnd.
Import ComposeMsg.

(** X28: the request an owner's [sendComposed] submits carries a payload
    the receiver understands: delivered by the endpoint on behalf of the
    trusted OFT with the amount of the request, it makes an active receiver
    transfer exactly that amount to the recipient given to [sendComposed],
    add it to [totalProcessed] and report recipient, amount and message
    type, for either message type. *)
Theorem composed_send_reaches_recipient {L : Type} `{Token : Manager.IERC20 L}
    (st st' : AlphaOFT.State (list Recorder.sent)) (sender _to : address)
    (_amount _dstEid : Z) (t : MessageType) (pay : bool) (opts : bytes)
    (ev : list AlphaOFT.event)
    (s : Manager.State) (ledger : L) (guid nonce srcEid from : Z)
    (ex : address) (extra : bytes) :
  is_address _to -> is_uint256 _amount ->
  AlphaOFT.sendComposed st sender _to _amount _dstEid t pay opts = Ok (st', ev) ->
  Manager.paused s = false ->
  exists (value : Z) (sp : AlphaOFT.SendParam) (fee : AlphaOFT.MessagingFee),
    AlphaOFT.core st' = (value, sp, fee, sender) :: AlphaOFT.core st
    /\ AlphaOFT.amountLD sp = _amount
    /\ AlphaOFT.to sp = mapping_get (AlphaOFT.crossChainManagers st) _dstEid
    /\ Manager.lzCompose s ledger (Manager.endpoint s) (Manager.trustedOFT s) guid
         (OFTComposeMsgCodec.envelope nonce srcEid (AlphaOFT.amountLD sp) from
            (AlphaOFT.composeMsg sp)) ex extra
       = (let* ledger' := Manager.safeTransfer (Manager.trustedOFT s) (Manager.self s)
                            _to _amount ledger in
          let* total := checked_add (Manager.totalProcessed s) _amount in
          Ok (Manager.mkState (Manager.self s) (Manager.owner s) (Manager.endpoint s)
                (Manager.trustedOFT s) total (Manager.paused s),
              ledger', [Manager.TokensProcessed _to _amount t])).
Proof.
  intros Hto Ham Hsend Hp.
  destruct (Z.eq_dec sender (AlphaOFT.owner st)) as [->|Hne];
    [|now rewrite sendComposed_not_owner in Hsend].
  rewrite sendComposed_owner, _sendComposed_request in Hsend.
  destruct (AlphaOFT.validDestination st _dstEid); [|discriminate].
  cbn in Hsend. injection Hsend as <- _.
  eexists _, _, _. split; [reflexivity|]. split; [reflexivity|].
  split; [reflexivity|].
  cbn [send_request AlphaOFT.amountLD AlphaOFT.composeMsg].
  rewrite lzCompose_envelope.
  replace (revert_if (Manager.paused s) ContractPaused) with (Ok tt)
    by (now rewrite Hp).
  rewrite !Z.eqb_refl. cbn [revert_if negb bind].
  rewrite Z.mod_small by exact Ham.
  unfold process.
  destruct t; cbn [compose_payload].
  - rewrite <- (app_nil_r (encodeCrossChainSend _to)).
    rewrite decode_encodeCrossChainSend by assumption.
    cbn [bind messageType additionalData recipient]. reflexivity.
  - rewrite <- (app_nil_r (encodeBurnt _to _amount)).
    rewrite decode_encodeBurnt by assumption.
    cbn [bind messageType additionalData recipient].
    rewrite decode_uint256_encode by assumption. reflexivity.
Qed.

Lemma composed_send_reaches_recipient_witness :
  AlphaOFT.sendComposed Scenario.wired Scenario.admin Scenario.R 1000 Scenario.D
    BURNT false []
  = Ok (AlphaOFT.mkState Scenario.admin {[ Scenario.D := 12345 ]}
          {[ Scenario.D := Scenario.manager ]}
          [(5, send_request Scenario.wired Scenario.R 1000 Scenario.D BURNT [],
            Recorder.fee, Scenario.admin)],
        [AlphaOFT.CrossChainSendInitiated Scenario.R 1000 Scenario.D])
  /\ Manager.lzCompose Scenario.active Scenario.funds Scenario.T1 Scenario.O1 0
       (OFTComposeMsgCodec.envelope 9 30102 1000 12345
          (encodeBurnt Scenario.R 1000)) 0 []
     = Ok (Manager.mkState Scenario.manager Scenario.admin Scenario.T1 Scenario.O1
             1000 false,
           <[Scenario.R := 1000]> (<[Scenario.manager := 0]> Scenario.funds),
           [Manager.TokensProcessed Scenario.R 1000 BURNT]).
Proof.
  assert (Hr : is_address Scenario.R) by (unfold is_address, Scenario.R; lia).
  assert (Ha : is_uint256 1000) by (unfold is_uint256; lia).
  assert (Hs : AlphaOFT.sendComposed Scenario.wired Scenario.admin Scenario.R 1000
                 Scenario.D BURNT false []
               = Ok (AlphaOFT.mkState Scenario.admin {[ Scenario.D := 12345 ]}
                       {[ Scenario.D := Scenario.manager ]}
                       [(5, send_request Scenario.wired Scenario.R 1000 Scenario.D BURNT [],
                         Recorder.fee, Scenario.admin)],
                     [AlphaOFT.CrossChainSendInitiated Scenario.R 1000 Scenario.D]))
    by (vm_compute; reflexivity).
  split; [exact Hs|].
  destruct (composed_send_reaches_recipient _ _ _ _ _ _ _ _ _ _
              Scenario.active Scenario.funds 0 9 30102 12345 0 []
              Hr Ha Hs eq_refl)
    as (value & sp & fee & Hcore & _ & _ & Hl).
  cbn [AlphaOFT.core] in Hcore. injection Hcore as _ <- _.
  cbn [send_request AlphaOFT.amountLD AlphaOFT.composeMsg compose_payload] in Hl.
  refine (eq_trans Hl _). vm_compute. reflexivity.
Defined.

End EndToEnd.
